(** * cmd/pantheon.go: the [pantheon] command family of juicefs

    A shallow embedding of [cmd/pantheon.go] and a verification of its
    command translation: path validation, flag reconstruction, the
    argument vectors handed to the re-executed binary, and the life cycle
    of the child process.

    Layout:
    - [utf8], [fmt], [filepath]: the parts of the Go language and standard
      library the file relies on ([range] over a string, [%d], [%f],
      [filepath.IsAbs]);
    - [cli]: the interface of [github.com/urfave/cli/v2] the file uses;
    - the process monad [M]: the operating system as an oracle ([World]),
      a trace of the observable operations, and the three ways a Go
      function can end (return, [os.Exit], panic);
    - the functions of [pantheon.go], under their own names;
    - the theorems. *)

From Stdlib Require Import ZArith List Lia Bool.
From Stdlib Require Import Strings.String Strings.Ascii Numbers.DecimalString.
From Stdlib Require Import Floats.SpecFloat.
From stdpp Require Import gmap strings.

Set Default Proof Using "Type".

(** Go strings are byte sequences: [string] here, one [ascii] per byte.
    [+:+] is string concatenation (Go's [+]). *)

Definition byte_val (b : ascii) : Z := Z.of_N (N_of_ascii b).

(** The byte slice [s[:i]]. *)
Definition slice_to (s : string) (i : nat) : string := String.substring 0 i s.

(** ** unicode/utf8 and the [range] clause over a string *)

Module utf8.
Local Open Scope Z_scope.

Definition RuneError : Z := 0xFFFD.

Definition maskx : Z := 0x3F.
Definition mask2 : Z := 0x1F.
Definition mask3 : Z := 0x0F.
Definition mask4 : Z := 0x07.

Definition locb : Z := 0x80.
Definition hicb : Z := 0xBF.

(** Entries of the table [first]: the low three bits are the size of
    the sequence, the high four bits index [acceptRanges]. *)
Definition xx : Z := 0xF1.
Definition as_ : Z := 0xF0.
Definition s1 : Z := 0x02.
Definition s2 : Z := 0x13.
Definition s3 : Z := 0x03.
Definition s4 : Z := 0x23.
Definition s5 : Z := 0x34.
Definition s6 : Z := 0x04.
Definition s7 : Z := 0x44.

Definition first (b : Z) : Z :=
  if b <? 0x80 then as_
  else if b <? 0xC2 then xx
  else if b <? 0xE0 then s1
  else if b =? 0xE0 then s2
  else if b <? 0xED then s3
  else if b =? 0xED then s4
  else if b <? 0xF0 then s3
  else if b =? 0xF0 then s5
  else if b <? 0xF4 then s6
  else if b =? 0xF4 then s7
  else xx.

(** [acceptRanges[i]] as the pair (lo, hi) for the second byte. *)
Definition acceptRanges (i : Z) : Z * Z :=
  if i =? 0 then (locb, hicb)
  else if i =? 1 then (0xA0, hicb)
  else if i =? 2 then (locb, 0x9F)
  else if i =? 3 then (0x90, hicb)
  else if i =? 4 then (locb, 0x8F)
  else (0, 0).

Definition byte_at (s : string) (i : nat) : Z :=
  match String.get i s with
  | Some b => byte_val b
  | None => 0
  end.

Definition outside (b lo hi : Z) : bool := (b <? lo) || (hi <? b).

(** [utf8.DecodeRuneInString]: the code point at the start of [s] and
    its width in bytes; [(RuneError, 1)] for an invalid encoding. *)
Definition DecodeRuneInString (s : string) : Z * nat :=
  let n := Z.of_nat (String.length s) in
  if n <? 1 then (RuneError, 0%nat)
  else
    let b0 := byte_at s 0 in
    let x := first b0 in
    if as_ <=? x then
      (if x =? as_ then b0 else RuneError, 1%nat)
    else
      let sz := Z.land x 7 in
      let '(lo, hi) := acceptRanges (Z.shiftr x 4) in
      if n <? sz then (RuneError, 1%nat)
      else
        let b1 := byte_at s 1 in
        if outside b1 lo hi then (RuneError, 1%nat)
        else if sz <=? 2 then
          (Z.lor (Z.shiftl (Z.land b0 mask2) 6) (Z.land b1 maskx), 2%nat)
        else
          let b2 := byte_at s 2 in
          if outside b2 locb hicb then (RuneError, 1%nat)
          else if sz <=? 3 then
            (Z.lor (Z.lor (Z.shiftl (Z.land b0 mask3) 12)
                          (Z.shiftl (Z.land b1 maskx) 6))
                   (Z.land b2 maskx), 3%nat)
          else
            let b3 := byte_at s 3 in
            if outside b3 locb hicb then (RuneError, 1%nat)
            else
              (Z.lor (Z.lor (Z.lor (Z.shiftl (Z.land b0 mask4) 18)
                                   (Z.shiftl (Z.land b1 maskx) 12))
                            (Z.shiftl (Z.land b2 maskx) 6))
                     (Z.land b3 maskx), 4%nat).

(** [for i, ch := range s]: the pairs (byte index, code point) the
    clause yields, in order.  After a code point of width [w] the next
    iteration starts [w] bytes further; the recursion walks byte by
    byte and [skip] counts the bytes of the current code point still to
    pass over. *)
Fixpoint range_from (s : string) (i skip : nat) : list (nat * Z) :=
  match s with
  | EmptyString => []
  | String _ rest =>
      match skip with
      | S k => range_from rest (S i) k
      | O =>
          let '(ch, size) := DecodeRuneInString s in
          (i, ch) :: range_from rest (S i) (Nat.pred size)
      end
  end.

Definition range (s : string) : list (nat * Z) := range_from s 0 0.
End utf8.

(** ** fmt: the verbs [%d] and [%f] *)

Module fmt.
Local Open Scope Z_scope.

(** [%d] of an [int] or [int64]. *)
Definition d (n : Z) : string := NilZero.string_of_int (Z.to_int n).

(** Six-digit fraction, zero padded on the left. *)
Definition frac6 (n : Z) : string :=
  let digits := d n in
  let pad := (6 - String.length digits)%nat in
  String.concat "" (repeat "0"%string pad) +:+ digits.

(** The magnitude [m * 2^e] scaled by [10^6] and rounded to the nearest
    integer, ties to even, as [strconv] rounds the exact decimal
    expansion. *)
Definition scaled6 (m : positive) (e : Z) : Z :=
  let num := Z.pos m * 1000000 in
  if 0 <=? e then num * 2 ^ e
  else
    let den := 2 ^ (- e) in
    let q := num / den in
    let r := num mod den in
    if 2 * r <? den then q
    else if den <? 2 * r then q + 1
    else if Z.even q then q else q + 1.

(** [%f] of a [float64]: fixed notation with precision 6. *)
Definition f (x : spec_float) : string :=
  match x with
  | S754_nan => "NaN"
  | S754_infinity false => "+Inf"
  | S754_infinity true => "-Inf"
  | S754_zero false => "0.000000"
  | S754_zero true => "-0.000000"
  | S754_finite sign m e =>
      let v := scaled6 m e in
      (if sign then "-" else "") +:+ d (v / 1000000) +:+ "." +:+ frac6 (v mod 1000000)
  end%string.
End fmt.

(** ** path/filepath *)

Module filepath.
(** [filepath.IsAbs] on Unix: [strings.HasPrefix(path, "/")]. *)
Definition IsAbs (path : string) : bool := String.prefix "/" path.
End filepath.

(** ** github.com/urfave/cli/v2, as far as [pantheon.go] uses it *)

Module cli.
(** The dynamic type of a [cli.Flag], as the type switch of
    [buildFlagArgs] sees it.  [OtherFlag t] stands for every other
    implementation of the interface; [t] is what [%T] prints. *)
Inductive FlagType : Type :=
| BoolFlag
| StringFlag
| IntFlag
| Int64Flag
| Float64Flag
| StringSliceFlag
| OtherFlag (t : string).

Record Flag : Type := {
  Type_ : FlagType;
  Names : list string   (* flag.Names() *)
}.

Record Command : Type := {
  Name : string;
  Flags : list Flag
}.

(** A parsed invocation, through its accessors: the positional
    arguments ([c.Args()]), and for a flag name whether the caller set
    it and its resolved value at each type. *)
Record Context : Type := {
  Command_ : Command;
  Args : list string;
  IsSet : string -> bool;
  Bool : string -> bool;
  String : string -> string;
  Int : string -> Z;
  Int64 : string -> Z;
  Float64 : string -> spec_float;
  StringSlice : string -> list string
}.

(** [c.NArg()] and [c.Args().Get(i)]; [Get] returns the empty string
    out of range. *)
Definition NArg (c : Context) : nat := length (Args c).
Definition Get (c : Context) (i : nat) : string := nth i (Args c) EmptyString.

(** *** The parsed flag set

    A concrete [Context]: the flag set records, per flag name the caller
    set, its resolved value.  Go's [flag.FlagSet] keeps them in a map
    keyed by name, hence [gmap]. *)
Inductive Value : Type :=
| VBool (b : bool)
| VString (s : string)
| VInt (n : Z)
| VInt64 (n : Z)
| VFloat64 (x : spec_float)
| VStringSlice (l : list string).

Definition ofFlagSet (cmd : Command) (args : list string)
    (set : gmap string Value) : Context :=
  {| Command_ := cmd;
     Args := args;
     IsSet := fun n => match set !! n with Some _ => true | None => false end;
     Bool := fun n => match set !! n with Some (VBool b) => b | _ => false end;
     String := fun n => match set !! n with Some (VString s) => s | _ => EmptyString end;
     Int := fun n => match set !! n with Some (VInt z) => z | _ => 0%Z end;
     Int64 := fun n => match set !! n with Some (VInt64 z) => z | _ => 0%Z end;
     Float64 := fun n => match set !! n with Some (VFloat64 x) => x | _ => S754_zero false end;
     StringSlice := fun n => match set !! n with Some (VStringSlice l) => l | _ => [] end |}.

(** The caller's flags in the order given on the command line, recorded
    into the flag set: one entry per flag, under the flag's primary name
    (the library marks a flag given under an alias as set under each of
    its names, the primary one included). *)
Definition parsed (cmd : Command) (args : list string)
    (given : list (string * Value)) : Context :=
  ofFlagSet cmd args (list_to_map given).
End cli.

(** ** The process: oracle, trace and outcome *)

(** How the child ended, as [os.ProcessState] reports it. *)
Inductive ProcessState : Type :=
| Exited (status : Z)
| Signaled (sig : Z).

(** What [cmd.Run()] meets: the child could not be started, waiting for
    it failed, or it was waited for and ended in a state. *)
Inductive RunResult : Type :=
| StartFailed (e : string)
| WaitFailed (e : string)
| Waited (ps : ProcessState).

(** Go's [error] values this file handles: [exec.ExitError] and any
    other error. *)
Inductive error : Type :=
| ExitError (ps : ProcessState)
| OtherError (e : string).

(** [ExitError.ExitCode()]: the exit status, or -1 for a process
    ended by a signal. *)
Definition ExitCode (ps : ProcessState) : Z :=
  match ps with
  | Exited n => n
  | Signaled _ => (-1)%Z
  end.

(** [cmd.Run()] returns nil when the child exited with status 0, an
    [exec.ExitError] when it ended otherwise, and another error when it
    could not be started or waited for. *)
Definition Run_error (r : RunResult) : option error :=
  match r with
  | StartFailed e => Some (OtherError e)
  | WaitFailed e => Some (OtherError e)
  | Waited (Exited 0%Z) => None
  | Waited ps => Some (ExitError ps)
  end.

(** The operating system, as an oracle. *)
Record World : Type := {
  os_Stat : string -> bool;                   (* os.Stat(path): err == nil *)
  os_Executable : string + string;            (* os.Executable(): path or error *)
  exec_Run : string -> list string -> RunResult
                                              (* exec.Command(name, args...).Run() *)
}.

(** The observable operations, in program order. *)
Inductive Event : Type :=
| EvFatalf (msg : string)                     (* logger.Fatalf: the message logged *)
| EvUsage (cmd : string) (n : nat)            (* setup: too few arguments reported *)
| EvStat (path : string)                      (* os.Stat *)
| EvNotify                                    (* signal.Notify(c, os.Interrupt, SIGTERM) *)
| EvRun (name : string) (args : list string)  (* cmd.Run(): start the child and wait *)
| EvStop.                                     (* signal.Stop(c) *)

(** How a Go function ends: it returns, the process exits with a status
    ([os.Exit]), or it panics. *)
Inductive Outcome (A : Type) : Type :=
| Ret (a : A)
| Halt (code : Z)
| Panic (msg : string).
Arguments Ret {A} a.
Arguments Halt {A} code.
Arguments Panic {A} msg.

Definition M (A : Type) : Type := World -> list Event * Outcome A.

Definition ret {A} (a : A) : M A := fun _ => ([], Ret a).

Definition bind {A B} (m : M A) (k : A -> M B) : M B :=
  fun w =>
    match m w with
    | (t, Ret a) => let '(t', o) := k a w in (t ++ t', o)
    | (t, Halt n) => (t, Halt n)
    | (t, Panic e) => (t, Panic e)
    end.

Notation "x <- m ;; k" := (bind m (fun x => k))
  (at level 100, m at next level, right associativity).
Notation "m ;;; k" := (bind m (fun _ => k))
  (at level 100, right associativity).

Definition emit (e : Event) : M unit := fun _ => ([e], Ret tt).
Definition os_Exit {A} (code : Z) : M A := fun _ => ([], Halt code).
Definition panic {A} (msg : string) : M A := fun _ => ([], Panic msg).

Definition trace {A} (r : list Event * Outcome A) : list Event := fst r.
Definition outcome {A} (r : list Event * Outcome A) : Outcome A := snd r.

(** The process ended with a non-zero status: what the spec calls
    failing. *)
Definition fails {A} (r : list Event * Outcome A) : Prop :=
  exists n, outcome r = Halt n /\ n <> 0%Z.

(** Modelled from the spec: the package-level [logger] is declared
    elsewhere in package cmd.  Section 4.1 and 7: a fatal failure reports
    the condition and the process terminates with a non-zero status; the
    status is 1. *)
Definition logger_Fatalf {A} (msg : string) : M A :=
  emit (EvFatalf msg) ;;; os_Exit 1.

(** Modelled from the spec: [setup] is declared elsewhere in package cmd.
    Section 4.3 gives each command its required positionals; [setup c n]
    lets the command proceed when at least [n] are given and ends the
    process otherwise. *)
Definition setup (c : cli.Context) (n : nat) : M unit :=
  if (cli.NArg c <? n)%nat
  then emit (EvUsage (cli.Name (cli.Command_ c)) n) ;;; os_Exit 1
  else ret tt.

(** * The functions of [cmd/pantheon.go] *)

Definition when (b : bool) (m : M unit) : M unit := if b then m else ret tt.

(** [os.Stat(path)], of which the code keeps [err == nil]. *)
Definition stat_exists (path : string) : M bool :=
  fun w => ([EvStat path], Ret (os_Stat w path)).

Definition validateAbsolutePath (path : string) (shouldExist : bool) : M unit :=
  when (negb (filepath.IsAbs path))
       (logger_Fatalf ("path must be absolute: " +:+ path)) ;;;
  exists_ <- stat_exists path ;;
  when (shouldExist && negb exists_)
       (logger_Fatalf ("path does not exist: " +:+ path)) ;;;
  when (negb shouldExist && exists_)
       (logger_Fatalf ("path already exists: " +:+ path)).

(** [flag.Names()[0]]; indexing an empty slice panics. *)
Definition primaryName (flag : cli.Flag) : M string :=
  match cli.Names flag with
  | n :: _ => ret n
  | [] => panic "index out of range [0] with length 0"
  end.

(** One iteration of the loop of [buildFlagArgs]: the value of [args]
    after the body has run for [flag]. *)
Definition buildFlagArgs_body (c : cli.Context) (args : list string)
    (flag : cli.Flag) : M (list string) :=
  flagName <- primaryName flag ;;
  if cli.IsSet c flagName then
    match cli.Type_ flag with
    | cli.BoolFlag =>
        if cli.Bool c flagName
        then ret (args ++ ["--" +:+ flagName])
        else ret args
    | cli.StringFlag =>
        ret (args ++ ["--" +:+ flagName +:+ "=" +:+ cli.String c flagName])
    | cli.IntFlag =>
        ret (args ++ ["--" +:+ flagName +:+ "=" +:+ fmt.d (cli.Int c flagName)])
    | cli.Int64Flag =>
        ret (args ++ ["--" +:+ flagName +:+ "=" +:+ fmt.d (cli.Int64 c flagName)])
    | cli.Float64Flag =>
        ret (args ++ ["--" +:+ flagName +:+ "=" +:+ fmt.f (cli.Float64 c flagName)])
    | cli.StringSliceFlag =>
        ret (fold_left (fun a value => a ++ ["--" +:+ flagName +:+ "=" +:+ value])
                       (cli.StringSlice c flagName) args)
    | cli.OtherFlag t =>
        logger_Fatalf ("unsupported flag type for flag " +:+ flagName +:+ ": " +:+ t)
    end
  else ret args.

(** [for _, flag := range flags], threading [args]. *)
Fixpoint buildFlagArgs_loop (c : cli.Context) (flags : list cli.Flag)
    (args : list string) : M (list string) :=
  match flags with
  | [] => ret args
  | flag :: rest =>
      args' <- buildFlagArgs_body c args flag ;;
      buildFlagArgs_loop c rest args'
  end.

Definition buildFlagArgs (c : cli.Context) : M (list string) :=
  buildFlagArgs_loop c (cli.Flags (cli.Command_ c)) [].

(** [os.Executable()], fatal when it fails. *)
Definition executable_or_fatal : M string :=
  fun w =>
    match os_Executable w with
    | inl path => ret path w
    | inr e => logger_Fatalf ("failed to get current executable: " +:+ e) w
    end.

(** [cmd.Run()] for [exec.Command(name, args...)]. *)
Definition cmd_Run (name : string) (args : list string) : M (option error) :=
  fun w => ([EvRun name args], Ret (Run_error (exec_Run w name args))).

(** The goroutine relaying signals to the child runs beside this flow
    and is not part of it: what the relayed signals do to the child is in
    the result the oracle gives for [cmd.Run()]. *)
Definition executeJuicefsCommand (args : list string) : M (option error) :=
  executable <- executable_or_fatal ;;
  emit EvNotify ;;;
  err <- cmd_Run executable args ;;
  emit EvStop ;;;
  match err with
  | Some (ExitError exitError) => os_Exit (ExitCode exitError)
  | _ => ret err
  end.

Definition query : Z := 63.   (* '?' *)

(** The loop of [metaDirWithoutQuery] over the pairs of the range
    clause: the index of the first code point equal to ['?']. *)
Fixpoint metaDirWithoutQuery_loop (l : list (nat * Z)) : option nat :=
  match l with
  | [] => None
  | (i, ch) :: rest =>
      if (ch =? query)%Z then Some i else metaDirWithoutQuery_loop rest
  end.

Definition metaDirWithoutQuery (metaDir : string) : string :=
  match metaDirWithoutQuery_loop (utf8.range metaDir) with
  | Some i => slice_to metaDir i
  | None => metaDir
  end.

Definition pantheonFormat (c : cli.Context) : M (option error) :=
  setup c 2 ;;;
  let metaDir := cli.Get c 0 in
  let name := cli.Get c 1 in
  validateAbsolutePath (metaDirWithoutQuery metaDir) false ;;;
  let args := ["format"; "badger://" +:+ metaDir; name; "--trash-days=999"] in
  flagArgs <- buildFlagArgs c ;;
  executeJuicefsCommand (args ++ flagArgs).

Definition pantheonMount (c : cli.Context) : M (option error) :=
  setup c 2 ;;;
  let metaDir := cli.Get c 0 in
  let mountPoint := cli.Get c 1 in
  validateAbsolutePath (metaDirWithoutQuery metaDir) true ;;;
  let args := ["mount"; "badger://" +:+ metaDir; mountPoint] in
  flagArgs <- buildFlagArgs c ;;
  executeJuicefsCommand (args ++ flagArgs).

Definition pantheonUmount (c : cli.Context) : M (option error) :=
  setup c 1 ;;;
  let mountPoint := cli.Get c 0 in
  let args := ["umount"; mountPoint] in
  flagArgs <- buildFlagArgs c ;;
  executeJuicefsCommand (args ++ flagArgs).

Definition pantheonCheckpoint (c : cli.Context) : M (option error) :=
  setup c 2 ;;;
  let oldMetaDir := cli.Get c 0 in
  let newMetaDir := cli.Get c 1 in
  validateAbsolutePath oldMetaDir true ;;;
  validateAbsolutePath newMetaDir false ;;;
  let args := ["clone"; oldMetaDir; newMetaDir] in
  executeJuicefsCommand args.

(** ** The spec's words for the query suffix

    Section 4.1: a path value is truncated at the first ['?'] character,
    exclusive.  [beforeQuery] is that truncation, byte by byte, to be
    compared with [metaDirWithoutQuery]. *)
Fixpoint beforeQuery (s : string) : string :=
  match s with
  | EmptyString => EmptyString
  | String b rest =>
      if Ascii.eqb b "?" then EmptyString else String b (beforeQuery rest)
  end.

(** ** Reading the range clause *)

(** The first [k] bytes of [s] (as far as it has them) are not ['?']. *)
Definition no_query (k : nat) (s : string) : Prop :=
  forall (j : nat) (c : ascii),
    (j < k)%nat -> String.get j s = Some c -> Ascii.eqb c "?" = false.

(** The byte index of the first ['?'] of [s]. *)
Fixpoint query_index (s : string) : option nat :=
  match s with
  | EmptyString => None
  | String b rest =>
      if Ascii.eqb b "?" then Some 0%nat else option_map S (query_index rest)
  end.

(** ** Concrete worlds and invocations used by the examples *)

(** A world in which only the listed paths exist; the running binary is
    [/usr/local/bin/juicefs] and the child ends as [r]. *)
Definition world_with (existing : list string) (r : RunResult) : World :=
  {| os_Stat := fun p => existsb (String.eqb p) existing;
     os_Executable := inl "/usr/local/bin/juicefs";
     exec_Run := fun _ _ => r |}.

Definition flag (t : cli.FlagType) (names : list string) : cli.Flag :=
  {| cli.Type_ := t; cli.Names := names |}.

(** ** Reading the flag reconstruction *)

(** The tokens one iteration of the loop adds for [flag]: what the body
    returns when it starts from no tokens. *)
Definition flagTokens (c : cli.Context) (w : World) (flag : cli.Flag) : list string :=
  match outcome (buildFlagArgs_body c [] flag w) with
  | Ret toks => toks
  | _ => []
  end.

(** [flag] has a name and, if the caller set it, a type the switch of
    [buildFlagArgs] handles. *)
Definition supported (c : cli.Context) (flag : cli.Flag) : Prop :=
  exists name aliases,
    cli.Names flag = name :: aliases /\
    (cli.IsSet c name = true -> forall t, cli.Type_ flag <> cli.OtherFlag t).

(** Two invocations resolve [name] alike: same set-ness and the same
    value at every type. *)
Definition same_resolved (c1 c2 : cli.Context) (name : string) : Prop :=
  cli.IsSet c1 name = cli.IsSet c2 name /\
  cli.Bool c1 name = cli.Bool c2 name /\
  cli.String c1 name = cli.String c2 name /\
  cli.Int c1 name = cli.Int c2 name /\
  cli.Int64 c1 name = cli.Int64 c2 name /\
  cli.Float64 c1 name = cli.Float64 c2 name /\
  cli.StringSlice c1 name = cli.StringSlice c2 name.

(** The schema of the examples: a repeated string, an integer and a
    boolean flag, and an invocation that gives them values. *)
Definition example_flags : list cli.Flag :=
  [flag cli.IntFlag ["trash-days"];
   flag cli.BoolFlag ["d"; "background"];
   flag cli.StringSliceFlag ["o"];
   flag cli.StringFlag ["bucket"];
   flag cli.BoolFlag ["force"]].

Definition example_given : list (string * cli.Value) :=
  [("o", cli.VStringSlice ["allow_other"; "ro"]);
   ("trash-days", cli.VInt 5);
   ("force", cli.VBool false);
   ("bucket", cli.VString "");
   ("d", cli.VBool true)].

Definition example_context (name : string) (args : list string) : cli.Context :=
  cli.parsed {| cli.Name := name; cli.Flags := example_flags |} args example_given.

(** ** Reading the traces *)

(** The event is the start of a child process. *)
Definition is_run (e : Event) : Prop := exists name args, e = EvRun name args.


(** An invocation with a query suffix on its first positional argument,
    and a world in which the directory before the suffix exists and the
    path with the suffix does not. *)
Definition query_context (name : string) : cli.Context :=
  cli.parsed {| cli.Name := name; cli.Flags := [] |}
             ["/data/myfs?x=1"; "/data/branch"] [].

Definition query_world : World :=
  world_with ["/data/myfs"] (Waited (Exited 0)).

(** [format /data/myfs myfs --trash-days=5], the flag being the integer
    flag [trash-days] of the schema of the target [format] command. *)
Definition trash_days_context : cli.Context :=
  cli.parsed {| cli.Name := "format";
                cli.Flags := [flag cli.IntFlag ["trash-days"]] |}
             ["/data/myfs"; "myfs"] [("trash-days", cli.VInt 5)].

(** No byte of [p] is ['=']. *)
Fixpoint no_equals (p : string) : bool :=
  match p with
  | EmptyString => true
  | String a rest => negb (Ascii.eqb a "=") && no_equals rest
  end.

(** [format /data/myfs myfs -d]: of the flags of the example schema the
    caller sets [d] only. *)
Definition background_context : cli.Context :=
  cli.parsed {| cli.Name := "format"; cli.Flags := example_flags |}
             ["/data/myfs"; "myfs"] [("d", cli.VBool true)].

(** ** Proof automation for the decoder

    [eval_closed_tests] decides the tests of the goal that have no
    variable; [eval_table x] evaluates what the decoder reads from the
    entry [x] of the table [first]. *)
Local Open Scope Z_scope.
Ltac eval_closed_tests :=
  repeat match goal with
  | |- context [if ?c then _ else _] =>
      let v := eval vm_compute in c in
      match v with
      | true => change c with true
      | false => change c with false
      end; cbv iota
  end.

Ltac eval_table x :=
  let v := eval vm_compute in (utf8.as_ <=? x) in
  change (utf8.as_ <=? x) with v;
  let sz := eval vm_compute in (Z.land x 7) in
  change (Z.land x 7) with sz;
  let rg := eval vm_compute in (utf8.acceptRanges (Z.shiftr x 4)) in
  change (utf8.acceptRanges (Z.shiftr x 4)) with rg;
  cbv beta iota zeta.

Local Close Scope Z_scope.

(** ** Reading the traces, continued *)

(** The paths the run probed with [os.Stat], in order. *)
Fixpoint probes (t : list Event) : list string :=
  match t with
  | [] => []
  | EvStat path :: rest => path :: probes rest
  | _ :: rest => probes rest
  end.

(** The children the run started, in order: each with the arguments it
    was given. *)
Fixpoint children (t : list Event) : list (list string) :=
  match t with
  | [] => []
  | EvRun _ args :: rest => args :: children rest
  | _ :: rest => children rest
  end.

(** How many signal subscriptions the run made and how many it
    cancelled. *)
Fixpoint subscribed (t : list Event) : nat :=
  match t with
  | [] => 0
  | EvNotify :: rest => S (subscribed rest)
  | _ :: rest => subscribed rest
  end.

Fixpoint cancelled (t : list Event) : nat :=
  match t with
  | [] => 0
  | EvStop :: rest => S (cancelled rest)
  | _ :: rest => cancelled rest
  end.

(** The run started no child and touched no signal subscription. *)
Definition quiet (t : list Event) : Prop :=
  children t = [] /\ subscribed t = 0 /\ cancelled t = 0.

(** The run started at most one child, subscribed to the signals once
    per child, and cancelled every subscription it made. *)
Definition one_shot (t : list Event) : Prop :=
  length (children t) <= 1 /\
  subscribed t = length (children t) /\
  cancelled t = subscribed t.

(** The flag [flag] has a name and the caller did not set it. *)
Definition unset (c : cli.Context) (flag : cli.Flag) : Prop :=
  exists name aliases,
    cli.Names flag = name :: aliases /\ cli.IsSet c name = false.

(** A schema with a flag of a type [buildFlagArgs] does not handle (a
    duration) between flags it handles, and invocations that set or leave
    it. *)
Definition duration_flags : list cli.Flag :=
  [flag cli.BoolFlag ["d"; "background"];
   flag (cli.OtherFlag "*cli.DurationFlag") ["heartbeat"];
   flag cli.Int64Flag ["inodes"];
   flag cli.IntFlag ["max-uploads"]].

Definition duration_context (given : list (string * cli.Value)) : cli.Context :=
  cli.parsed {| cli.Name := "mount"; cli.Flags := duration_flags |}
             ["/data/myfs"; "/mnt/jfs"] given.

(** A world in which [os.Executable()] fails. *)
Definition world_without_executable : World :=
  {| os_Stat := fun _ => false;
     os_Executable := inr "readlink /proc/self/exe: no such file or directory";
     exec_Run := fun _ _ => Waited (Exited 0) |}.

Definition integers_context : cli.Context :=
  duration_context [("inodes", cli.VInt64 0); ("max-uploads", cli.VInt (-3))].

(** The event is a message written for the user, not an operation on the
    file system, the signals or a child. *)
Definition is_message (e : Event) : bool :=
  match e with
  | EvFatalf _ | EvUsage _ _ => true
  | _ => false
  end.

(** [umount /mnt/jfs -d] with the example schema, and a world in which
    nothing exists. *)
Definition umount_context : cli.Context :=
  cli.parsed {| cli.Name := "umount"; cli.Flags := example_flags |}
             ["/mnt/jfs"] [("d", cli.VBool true)].

Definition empty_world (r : RunResult) : World := world_with [] r.

(** * Theorems *)

(** ** The range clause and the query suffix *)

Section QuerySuffix.
Local Open Scope Z_scope.

Lemma byte_val_range (b : ascii) : 0 <= byte_val b < 256.
Proof.
  unfold byte_val.
  pose proof (N_ascii_bounded b) as Hb. lia.
Qed.

Lemma byte_val_query (b : ascii) : byte_val b = query -> b = "?"%char.
Proof.
  unfold byte_val, query. intros H.
  rewrite <- (ascii_N_embedding b).
  replace (N_of_ascii b) with 63%N by lia.
  reflexivity.
Qed.

(** A code point assembled from two or more bytes is never ['?']: its
    bits above the low six are those of the leading bytes. *)
Lemma rune2_query (a c : Z) :
  0 <= c < 64 -> Z.lor (Z.shiftl a 6) c = query -> a = 0.
Proof.
  intros Hc H.
  apply (f_equal (fun z => Z.shiftr z 6)) in H.
  rewrite Z.shiftr_lor, Z.shiftr_shiftl_l in H by lia.
  rewrite Z.sub_diag, Z.shiftl_0_r in H.
  rewrite (Z.shiftr_div_pow2 c), Z.div_small, Z.lor_0_r in H by (simpl; lia).
  exact H.
Qed.

Lemma rune3_query (a b c : Z) :
  0 <= c < 64 ->
  Z.lor (Z.lor (Z.shiftl a 12) (Z.shiftl b 6)) c = query -> a = 0 /\ b = 0.
Proof.
  intros Hc H.
  replace (Z.shiftl a 12) with (Z.shiftl (Z.shiftl a 6) 6) in H
    by (rewrite Z.shiftl_shiftl by lia; reflexivity).
  rewrite <- Z.shiftl_lor in H.
  apply rune2_query in H; [|exact Hc].
  apply Z.lor_eq_0_iff in H. destruct H as [Ha Hb].
  apply Z.shiftl_eq_0_iff in Ha; [|lia]. auto.
Qed.

Lemma rune4_query (a b c d : Z) :
  0 <= d < 64 ->
  Z.lor (Z.lor (Z.lor (Z.shiftl a 18) (Z.shiftl b 12)) (Z.shiftl c 6)) d = query ->
  a = 0 /\ b = 0.
Proof.
  intros Hd H.
  replace (Z.shiftl a 18) with (Z.shiftl (Z.shiftl a 12) 6) in H
    by (rewrite Z.shiftl_shiftl by lia; reflexivity).
  replace (Z.shiftl b 12) with (Z.shiftl (Z.shiftl b 6) 6) in H
    by (rewrite Z.shiftl_shiftl by lia; reflexivity).
  rewrite <- !Z.shiftl_lor in H.
  apply rune2_query in H; [|exact Hd].
  apply Z.lor_eq_0_iff in H. destruct H as [Hab _].
  apply Z.lor_eq_0_iff in Hab. destruct Hab as [Ha Hb].
  apply Z.shiftl_eq_0_iff in Ha; [|lia].
  apply Z.shiftl_eq_0_iff in Hb; [|lia]. auto.
Qed.

Lemma maskx_bound (b : Z) : 0 <= Z.land b utf8.maskx < 64.
Proof.
  change utf8.maskx with (Z.ones 6). rewrite Z.land_ones by lia.
  change (2 ^ 6) with 64. apply Z.mod_pos_bound. lia.
Qed.

Lemma high_byte_not_query (s : string) (j : nat) (c : ascii) :
  String.get j s = Some c -> 0x80 <= utf8.byte_at s j -> Ascii.eqb c "?" = false.
Proof.
  unfold utf8.byte_at. intros -> Hge.
  destruct (Ascii.eqb_spec c "?"%char) as [->|]; [|reflexivity].
  vm_compute in Hge. exfalso. apply Hge. reflexivity.
Qed.

Lemma outside_false (b lo hi : Z) :
  utf8.outside b lo hi = false -> lo <= b <= hi.
Proof. unfold utf8.outside. intros H. apply orb_false_iff in H. lia. Qed.

Lemma no_query_0 (r : string) : no_query 0 r.
Proof. intros j c Hj. lia. Qed.

Lemma no_query_high (k : nat) (b : ascii) (r : string) :
  (forall j : nat, (j < k)%nat -> 0x80 <= utf8.byte_at (String b r) (S j)) ->
  no_query k r.
Proof.
  intros H j c Hj Hget.
  apply (high_byte_not_query r j c Hget).
  exact (H j Hj).
Qed.

Lemma first_cases (b0 : Z) :
  0 <= b0 < 256 ->
  (utf8.first b0 = utf8.as_ /\ b0 < 0x80) \/
  (utf8.first b0 = utf8.xx /\ 0x80 <= b0) \/
  (utf8.first b0 = utf8.s1 /\ 0xC2 <= b0 < 0xE0) \/
  (utf8.first b0 = utf8.s2 /\ b0 = 0xE0) \/
  (utf8.first b0 = utf8.s3 /\ 0xE1 <= b0 < 0xF0) \/
  (utf8.first b0 = utf8.s4 /\ b0 = 0xED) \/
  (utf8.first b0 = utf8.s5 /\ b0 = 0xF0) \/
  (utf8.first b0 = utf8.s6 /\ 0xF1 <= b0 < 0xF4) \/
  (utf8.first b0 = utf8.s7 /\ b0 = 0xF4).
Proof.
  intros Hb. unfold utf8.first.
  repeat match goal with
  | |- context [if (?x <? ?y) then _ else _] => destruct (Z.ltb_spec x y)
  | |- context [if (?x =? ?y) then _ else _] => destruct (Z.eqb_spec x y)
  end; lia.
Qed.

Lemma decode_first_byte (b : ascii) (r : string) :
  match utf8.DecodeRuneInString (String b r) with
  | (ch, size) =>
      if Ascii.eqb b "?"
      then ch = query
      else ch <> query /\ no_query (Nat.pred size) r
  end.
Proof.
  assert (Hn : (Z.of_nat (String.length (String b r)) <? 1) = false)
    by (apply Z.ltb_ge; simpl String.length; lia).
  unfold utf8.DecodeRuneInString. rewrite Hn. clear Hn.
  change (utf8.byte_at (String b r) 0) with (byte_val b).
  pose proof (byte_val_range b) as Hb.
  destruct (Ascii.eqb_spec b "?"%char) as [->|Hne].
  - reflexivity.
  - assert (Hq : byte_val b <> query) by (intros E; apply Hne, byte_val_query, E).
    set (b0 := byte_val b) in *. clearbody b0.
    destruct (first_cases b0 Hb)
      as [[-> H]|[[-> H]|[[-> H]|[[-> H]|[[-> H]|[[-> H]|[[-> H]|[[-> H]|[-> H]]]]]]]]].
    1: eval_table utf8.as_.
    2: eval_table utf8.xx.
    3: eval_table utf8.s1.
    4: eval_table utf8.s2.
    5: eval_table utf8.s3.
    6: eval_table utf8.s4.
    7: eval_table utf8.s5.
    8: eval_table utf8.s6.
    9: eval_table utf8.s7.
    all: eval_closed_tests.
    all: repeat match goal with
         | |- context [if ?c then _ else _] => destruct c eqn:?
         end.
    all: repeat match goal with
         | H : utf8.outside _ _ _ = false |- _ => apply outside_false in H
         end.
    all: split.
    all: try exact Hq.
    all: try apply no_query_0.
    all: try match goal with
         | |- utf8.RuneError <> query => discriminate
         end.
    all: try match goal with
         | |- no_query _ _ =>
             apply (no_query_high _ b r); intros j Hj; simpl in Hj;
             unfold utf8.locb in *;
             destruct j as [|[|[|j]]]; try (exfalso; clear - Hj; lia);
             match goal with
             | Hx : _ <= ?x <= _ |- _ <= ?x => clear - Hx; lia
             end
         end.
    all: intros E;
      match type of E with
      | Z.lor (Z.lor (Z.lor _ _) _) _ = _ => apply rune4_query in E
      | Z.lor (Z.lor _ _) _ = _ => apply rune3_query in E
      | Z.lor _ _ = _ => apply rune2_query in E
      end; try apply maskx_bound.
    all: change utf8.mask2 with (Z.ones 5) in E;
      change utf8.mask3 with (Z.ones 4) in E;
      change utf8.mask4 with (Z.ones 3) in E;
      change utf8.maskx with (Z.ones 6) in E;
      rewrite !Z.land_ones in E by lia;
      change (2 ^ 3) with 8 in E; change (2 ^ 4) with 16 in E;
      change (2 ^ 5) with 32 in E; change (2 ^ 6) with 64 in E.
    all: try match goal with E : _ /\ _ |- _ => destruct E as [E1 E2] end.
    all: Z.div_mod_to_equations; lia.
Qed.

Lemma no_query_step (k : nat) (b : ascii) (r : string) :
  no_query (S k) (String b r) -> Ascii.eqb b "?" = false /\ no_query k r.
Proof.
  intros H. split.
  - apply (H 0%nat b); [lia | reflexivity].
  - intros j c Hj Hget. apply (H (S j) c); [lia | exact Hget].
Qed.

Lemma loop_range_from (s : string) :
  forall i skip : nat,
    no_query skip s ->
    metaDirWithoutQuery_loop (utf8.range_from s i skip)
    = option_map (Nat.add i) (query_index s).
Proof.
  induction s as [|b r IH]; intros i skip Hskip.
  - reflexivity.
  - destruct skip as [|k].
    + pose proof (decode_first_byte b r) as Hd.
      cbn [utf8.range_from query_index].
      destruct (utf8.DecodeRuneInString (String b r)) as [ch size].
      cbn [metaDirWithoutQuery_loop].
      destruct (Ascii.eqb b "?").
      * rewrite Hd. cbn. f_equal. lia.
      * destruct Hd as [Hch Hnq].
        destruct (Z.eqb_spec ch query) as [E|_]; [contradiction|].
        rewrite (IH (S i) (Nat.pred size) Hnq).
        destruct (query_index r); cbn; [f_equal; lia | reflexivity].
    + apply no_query_step in Hskip. destruct Hskip as [Hb Hk].
      cbn [utf8.range_from query_index]. rewrite Hb.
      rewrite (IH (S i) k Hk).
      destruct (query_index r); cbn; [f_equal; lia | reflexivity].
Qed.

Lemma slice_to_query_index (s : string) :
  match query_index s with
  | Some j => slice_to s j = beforeQuery s
  | None => s = beforeQuery s
  end.
Proof.
  induction s as [|b r IH]; [reflexivity|].
  cbn [query_index beforeQuery].
  destruct (Ascii.eqb b "?"); [reflexivity|].
  destruct (query_index r) as [j|]; cbn [option_map].
  - unfold slice_to in *. cbn [String.substring]. rewrite IH. reflexivity.
  - rewrite <- IH. reflexivity.
Qed.

(** The loop over code points cuts where the byte-wise truncation of the
    spec cuts: a ['?'] byte is always a code point of its own. *)
Lemma metaDirWithoutQuery_beforeQuery (metaDir : string) :
  metaDirWithoutQuery metaDir = beforeQuery metaDir.
Proof.
  unfold metaDirWithoutQuery, utf8.range.
  rewrite (loop_range_from metaDir 0 0 (no_query_0 metaDir)).
  pose proof (slice_to_query_index metaDir) as H.
  destruct (query_index metaDir) as [j|]; cbn [option_map Nat.add]; exact H.
Qed.
End QuerySuffix.

(** ** The process monad *)

Lemma bind_Ret {A B} (m : M A) (k : A -> M B) (w : World) t a :
  m w = (t, Ret a) -> bind m k w = (t ++ trace (k a w), outcome (k a w)).
Proof.
  intros H. unfold bind. rewrite H. destruct (k a w); reflexivity.
Qed.

Lemma bind_Halt {A B} (m : M A) (k : A -> M B) (w : World) t n :
  m w = (t, Halt n) -> bind m k w = (t, Halt n).
Proof. intros H. unfold bind. rewrite H. reflexivity. Qed.

Lemma bind_Panic {A B} (m : M A) (k : A -> M B) (w : World) t e :
  m w = (t, Panic e) -> bind m k w = (t, Panic e).
Proof. intros H. unfold bind. rewrite H. reflexivity. Qed.

Lemma logger_Fatalf_run {A} (msg : string) (w : World) :
  @logger_Fatalf A msg w = ([EvFatalf msg], Halt 1%Z).
Proof. reflexivity. Qed.

(** An event of [m ;; k] is an event of [m], or of [k] run on what [m]
    returned. *)
Lemma bind_event {A B} (m : M A) (k : A -> M B) (w : World) (e : Event) :
  In e (trace (bind m k w)) ->
  In e (trace (m w)) \/
  exists a, outcome (m w) = Ret a /\ In e (trace (k a w)).
Proof.
  unfold bind. destruct (m w) as [t [a|n|msg]]; cbn; auto.
  destruct (k a w) as [t' o] eqn:Hk. cbn. intros H.
  apply in_app_or in H. destruct H as [H|H]; [auto|].
  right. exists a. rewrite Hk. auto.
Qed.

(** ** validateAbsolutePath *)

Lemma validateAbsolutePath_run (path : string) (shouldExist : bool) (w : World) :
  validateAbsolutePath path shouldExist w =
  if negb (filepath.IsAbs path) then
    ([EvFatalf ("path must be absolute: " +:+ path)], Halt 1%Z)
  else if shouldExist && negb (os_Stat w path) then
    ([EvStat path; EvFatalf ("path does not exist: " +:+ path)], Halt 1%Z)
  else if negb shouldExist && os_Stat w path then
    ([EvStat path; EvFatalf ("path already exists: " +:+ path)], Halt 1%Z)
  else ([EvStat path], Ret tt).
Proof.
  unfold validateAbsolutePath, bind, when, stat_exists.
  destruct (filepath.IsAbs path), shouldExist, (os_Stat w path); reflexivity.
Qed.

Lemma validateAbsolutePath_outcome (path : string) (shouldExist : bool) (w : World) :
  outcome (validateAbsolutePath path shouldExist w) =
  if filepath.IsAbs path && Bool.eqb (os_Stat w path) shouldExist
  then Ret tt else Halt 1%Z.
Proof.
  rewrite validateAbsolutePath_run.
  destruct (filepath.IsAbs path), shouldExist, (os_Stat w path); reflexivity.
Qed.

Lemma fails_Halt_1 {A} (t : list Event) : @fails A (t, Halt 1%Z).
Proof. exists 1%Z. split; [reflexivity | discriminate]. Qed.

Lemma not_fails_Ret {A} (t : list Event) (a : A) : ~ fails (t, Ret a).
Proof. intros [n [H _]]. discriminate H. Qed.

(** C4, as stated, fails: a relative path that exists makes
    [validate(p, mustExist=true)] fail although [p] exists, so failing is
    not equivalent to [p] not existing. *)
Lemma validate_relative_existing_counterexample :
  let w := world_with ["data/myfs"] (Waited (Exited 0)) in
  ~ (fails (validateAbsolutePath "data/myfs" true w)
     <-> os_Stat w "data/myfs" = false).
Proof.
  intros w [Hfail _].
  assert (H : os_Stat w "data/myfs" = false)
    by (apply Hfail; rewrite validateAbsolutePath_run; apply fails_Halt_1).
  discriminate H.
Qed.

(** C4, amended: for every absolute path [p], [validate(p, true)] fails
    iff [p] does not exist and [validate(p, false)] fails iff [p] exists;
    for every path that is not absolute, [validate] fails whatever the
    existence of [p] and whatever [mustExist]. *)
Theorem validateAbsolutePath_fails (w : World) (p : string) :
  (filepath.IsAbs p = true ->
     (fails (validateAbsolutePath p true w) <-> os_Stat w p = false) /\
     (fails (validateAbsolutePath p false w) <-> os_Stat w p = true)) /\
  (filepath.IsAbs p = false ->
     forall mustExist : bool, fails (validateAbsolutePath p mustExist w)).
Proof.
  split.
  - intros Habs. rewrite !validateAbsolutePath_run, Habs.
    destruct (os_Stat w p); cbn; split; split; intros H;
      try reflexivity; try discriminate H;
      try apply fails_Halt_1; exfalso; exact (not_fails_Ret _ _ H).
  - intros Habs mustExist. rewrite validateAbsolutePath_run, Habs.
    apply fails_Halt_1.
Qed.

Lemma validateAbsolutePath_fails_witness :
  let w := world_with ["/data/myfs"] (Waited (Exited 0)) in
  (fails (validateAbsolutePath "/data/myfs" false w)
     <-> os_Stat w "/data/myfs" = true) /\
  (fails (validateAbsolutePath "/data/new" true w)
     <-> os_Stat w "/data/new" = false) /\
  fails (validateAbsolutePath "data/myfs" true w).
Proof.
  intros w. split; [|split].
  - exact (proj2 (proj1 (validateAbsolutePath_fails w "/data/myfs") eq_refl)).
  - exact (proj1 (proj1 (validateAbsolutePath_fails w "/data/new") eq_refl)).
  - exact (proj2 (validateAbsolutePath_fails w "data/myfs") eq_refl true).
Defined.

(** ** executeJuicefsCommand *)

Lemma executeJuicefsCommand_run (args : list string) (w : World) (exe : string) :
  os_Executable w = inl exe ->
  executeJuicefsCommand args w =
  ([EvNotify; EvRun exe args; EvStop],
   match Run_error (exec_Run w exe args) with
   | Some (ExitError exitError) => Halt (ExitCode exitError)
   | err => Ret err
   end).
Proof.
  intros Hexe.
  unfold executeJuicefsCommand, bind, executable_or_fatal, cmd_Run, emit, ret.
  rewrite Hexe. cbn.
  destruct (Run_error (exec_Run w exe args)) as [[ps|e]|]; reflexivity.
Qed.

Lemma executeJuicefsCommand_no_executable (args : list string) (w : World) (e : string) :
  os_Executable w = inr e ->
  executeJuicefsCommand args w =
  ([EvFatalf ("failed to get current executable: " +:+ e)], Halt 1%Z).
Proof.
  intros Hexe.
  unfold executeJuicefsCommand, bind, executable_or_fatal.
  rewrite Hexe. reflexivity.
Qed.

(** C3: if the child exits with a non-zero status [n], the wrapper
    terminates with exactly the status [n]; if it exits with status zero,
    the runner returns nil and forces no exit. *)
Theorem exit_code_passthrough (w : World) (args : list string) (exe : string) (n : Z) :
  os_Executable w = inl exe ->
  exec_Run w exe args = Waited (Exited n) ->
  (n <> 0%Z -> outcome (executeJuicefsCommand args w) = Halt n) /\
  (n = 0%Z -> outcome (executeJuicefsCommand args w) = Ret None).
Proof.
  intros Hexe Hrun.
  rewrite (executeJuicefsCommand_run args w exe Hexe), Hrun.
  split; intros Hn.
  - destruct n; [contradiction| |]; reflexivity.
  - subst n. reflexivity.
Qed.

Lemma exit_code_passthrough_witness :
  outcome (executeJuicefsCommand ["umount"; "/mnt/jfs"]
             (world_with [] (Waited (Exited 137)))) = Halt 137%Z /\
  outcome (executeJuicefsCommand ["umount"; "/mnt/jfs"]
             (world_with [] (Waited (Exited 0)))) = Ret None.
Proof.
  split.
  - apply (proj1 (exit_code_passthrough
                    (world_with [] (Waited (Exited 137)))
                    ["umount"; "/mnt/jfs"] "/usr/local/bin/juicefs" 137
                    eq_refl eq_refl)).
    discriminate.
  - apply (proj2 (exit_code_passthrough
                    (world_with [] (Waited (Exited 0)))
                    ["umount"; "/mnt/jfs"] "/usr/local/bin/juicefs" 0
                    eq_refl eq_refl)).
    reflexivity.
Defined.

(** C9: once the executable is resolved, the runner subscribes to the
    signals, runs the child, and cancels the subscription right after
    [cmd.Run()] returns, before anything else: the trace is exactly
    Notify, Run, Stop whether the child exited with status zero (the
    runner returns nil), ended otherwise (the process then exits with the
    child's code), or could not be started or waited for (the runner
    returns the error). *)
Theorem signal_stop_after_run (w : World) (args : list string) (exe : string) :
  os_Executable w = inl exe ->
  trace (executeJuicefsCommand args w) = [EvNotify; EvRun exe args; EvStop] /\
  match exec_Run w exe args with
  | Waited (Exited 0%Z) => outcome (executeJuicefsCommand args w) = Ret None
  | Waited ps => outcome (executeJuicefsCommand args w) = Halt (ExitCode ps)
  | StartFailed e | WaitFailed e =>
      outcome (executeJuicefsCommand args w) = Ret (Some (OtherError e))
  end.
Proof.
  intros Hexe. rewrite (executeJuicefsCommand_run args w exe Hexe).
  split; [reflexivity|].
  destruct (exec_Run w exe args) as [e|e|[[|p|p]|sig]]; reflexivity.
Qed.

Lemma signal_stop_after_run_witness :
  trace (executeJuicefsCommand ["clone"; "/a"; "/b"]
           (world_with ["/a"] (Waited (Signaled 2))))
  = [EvNotify; EvRun "/usr/local/bin/juicefs" ["clone"; "/a"; "/b"]; EvStop] /\
  outcome (executeJuicefsCommand ["clone"; "/a"; "/b"]
             (world_with ["/a"] (Waited (Signaled 2)))) = Halt (-1)%Z.
Proof.
  exact (signal_stop_after_run (world_with ["/a"] (Waited (Signaled 2)))
           ["clone"; "/a"; "/b"] "/usr/local/bin/juicefs" eq_refl).
Defined.

(** ** buildFlagArgs *)

Section FlagReconstruction.
Variable c : cli.Context.
Variable w : World.

Lemma fold_left_append (g : string -> string) (values : list string) :
  forall args : list string,
    fold_left (fun a value => a ++ [g value]) values args = args ++ map g values.
Proof.
  induction values as [|v values IH]; intros args; cbn.
  - rewrite app_nil_r. reflexivity.
  - rewrite IH, <- app_assoc. reflexivity.
Qed.

(** The body only appends: its result on [args] is [args] followed by
    what it yields from no tokens. *)
Lemma buildFlagArgs_body_append (args : list string) (flag : cli.Flag) :
  buildFlagArgs_body c args flag w =
  match buildFlagArgs_body c [] flag w with
  | (t, Ret toks) => (t, Ret (args ++ toks))
  | (t, Halt n) => (t, Halt n)
  | (t, Panic e) => (t, Panic e)
  end.
Proof.
  unfold buildFlagArgs_body, bind, primaryName.
  destruct (cli.Names flag) as [|name aliases]; [reflexivity|].
  cbn. destruct (cli.IsSet c name); cbn; [|rewrite app_nil_r; reflexivity].
  destruct (cli.Type_ flag); cbn; try reflexivity.
  - destruct (cli.Bool c name); cbn; [reflexivity | rewrite app_nil_r; reflexivity].
  - rewrite !fold_left_append. reflexivity.
Qed.

Lemma buildFlagArgs_body_supported (args : list string) (flag : cli.Flag) :
  supported c flag ->
  buildFlagArgs_body c args flag w = ([], Ret (args ++ flagTokens c w flag)).
Proof.
  intros (name & aliases & Hnames & Htype).
  rewrite buildFlagArgs_body_append. unfold flagTokens.
  unfold buildFlagArgs_body, bind, primaryName. rewrite Hnames. cbn.
  destruct (cli.IsSet c name); cbn; [|reflexivity].
  destruct (cli.Type_ flag) eqn:Ht; cbn; try reflexivity.
  - destruct (cli.Bool c name); reflexivity.
  - exfalso. exact (Htype eq_refl t eq_refl).
Qed.

Lemma buildFlagArgs_loop_supported (flags : list cli.Flag) :
  Forall (supported c) flags ->
  forall args : list string,
    buildFlagArgs_loop c flags args w
    = ([], Ret (args ++ concat (map (flagTokens c w) flags))).
Proof.
  induction 1 as [|flag flags Hflag _ IH]; intros args; cbn.
  - rewrite app_nil_r. reflexivity.
  - rewrite (bind_Ret _ _ w _ _ (buildFlagArgs_body_supported args flag Hflag)).
    rewrite IH, <- app_assoc. reflexivity.
Qed.

(** Whatever the flags, the tokens returned are those of the flags in
    schema order, and nothing is logged on the way. *)
Lemma buildFlagArgs_loop_Ret (flags : list cli.Flag) :
  forall (args toks : list string) (t : list Event),
    buildFlagArgs_loop c flags args w = (t, Ret toks) ->
    t = [] /\ toks = args ++ concat (map (flagTokens c w) flags).
Proof.
  induction flags as [|flag flags IH]; intros args toks t H; cbn in H.
  - inversion H. rewrite app_nil_r. auto.
  - unfold bind in H.
    rewrite buildFlagArgs_body_append in H.
    destruct (buildFlagArgs_body c [] flag w) as [t0 [toks0|n|e]] eqn:Hbody;
      try discriminate H.
    destruct (buildFlagArgs_loop c flags (args ++ toks0) w) as [t1 o1] eqn:Hloop.
    inversion H; subst. clear H.
    apply IH in Hloop. destruct Hloop as [-> ->].
    assert (Ht0 : t0 = []).
    { revert Hbody. unfold buildFlagArgs_body, bind, primaryName.
      destruct (cli.Names flag); [discriminate|]. cbn.
      destruct (cli.IsSet c s); cbn; [|congruence].
      destruct (cli.Type_ flag); cbn; try congruence.
      destruct (cli.Bool c s); cbn; congruence. }
    subst t0. split; [reflexivity|].
    assert (Hft : flagTokens c w flag = toks0)
      by (unfold flagTokens; rewrite Hbody; reflexivity).
    cbn [map concat]. rewrite Hft, <- app_assoc. reflexivity.
Qed.

Lemma buildFlagArgs_loop_app (pre post : list cli.Flag) (args : list string) :
  buildFlagArgs_loop c (pre ++ post) args w
  = bind (buildFlagArgs_loop c pre args) (buildFlagArgs_loop c post) w.
Proof.
  revert args. induction pre as [|flag pre IH]; intros args; cbn.
  - unfold bind, ret. destruct (buildFlagArgs_loop c post args w); reflexivity.
  - unfold bind.
    destruct (buildFlagArgs_body c args flag w) as [t [a|n|e]]; [|reflexivity..].
    rewrite IH. unfold bind.
    destruct (buildFlagArgs_loop c pre a w) as [t1 [a1|n1|e1]]; try reflexivity.
    destruct (buildFlagArgs_loop c post a1 w) as [t2 o2].
    rewrite app_assoc. reflexivity.
Qed.
End FlagReconstruction.

Lemma buildFlagArgs_body_ext (c1 c2 : cli.Context) (w1 w2 : World)
    (args : list string) (flag : cli.Flag) :
  (forall name aliases,
      cli.Names flag = name :: aliases -> same_resolved c1 c2 name) ->
  buildFlagArgs_body c1 args flag w1 = buildFlagArgs_body c2 args flag w2.
Proof.
  intros Hsame. unfold buildFlagArgs_body, bind, primaryName.
  destruct (cli.Names flag) as [|name aliases]; [reflexivity|].
  destruct (Hsame name aliases eq_refl)
    as (HIsSet & HBool & HString & HInt & HInt64 & HFloat64 & HStringSlice).
  cbn. rewrite HIsSet, HBool, HString, HInt, HInt64, HFloat64, HStringSlice.
  destruct (cli.IsSet c2 name); [|reflexivity].
  destruct (cli.Type_ flag); try reflexivity.
  destruct (cli.Bool c2 name); reflexivity.
Qed.

Lemma buildFlagArgs_loop_ext (c1 c2 : cli.Context) (w1 w2 : World)
    (flags : list cli.Flag) :
  (forall flag name aliases,
      In flag flags -> cli.Names flag = name :: aliases ->
      same_resolved c1 c2 name) ->
  forall args : list string,
    buildFlagArgs_loop c1 flags args w1 = buildFlagArgs_loop c2 flags args w2.
Proof.
  induction flags as [|flag flags IH]; intros Hsame args; [reflexivity|].
  cbn. unfold bind.
  rewrite (buildFlagArgs_body_ext c1 c2 w1 w2 args flag)
    by (intros name aliases; apply Hsame; left; reflexivity).
  destruct (buildFlagArgs_body c2 args flag w2) as [t [a|n|e]]; try reflexivity.
  rewrite IH; [reflexivity|].
  intros f name aliases Hin. apply Hsame. right. exact Hin.
Qed.

(** Whenever [buildFlagArgs] returns, its tokens are those of the flags
    in schema order; it returns when every flag is supported. *)
Lemma buildFlagArgs_in_schema_order :
  (forall c w t toks,
      buildFlagArgs c w = (t, Ret toks) ->
      toks = concat (map (flagTokens c w) (cli.Flags (cli.Command_ c)))) /\
  (forall c w,
      Forall (supported c) (cli.Flags (cli.Command_ c)) ->
      buildFlagArgs c w
      = ([], Ret (concat (map (flagTokens c w) (cli.Flags (cli.Command_ c)))))).
Proof.
  split.
  - intros c w t toks H. unfold buildFlagArgs in H.
    apply buildFlagArgs_loop_Ret in H. destruct H as [_ ->]. reflexivity.
  - intros c w Hsup. unfold buildFlagArgs.
    rewrite (buildFlagArgs_loop_supported c w _ Hsup). reflexivity.
Qed.

(** C5: the tokens come out flag by flag in the order the schema
    declares: whenever [buildFlagArgs] returns, its result is the
    concatenation, in schema order, of the tokens of each flag, and it does
    return when every flag the caller set has a type the switch handles.
    The result depends on the schema and the resolved values only: two
    invocations with the same command that resolve the schema's flags
    alike give the same tokens (in whatever worlds), and so do two
    invocations in which the caller gave the same flags in a different
    order. *)
Theorem buildFlagArgs_schema_order :
  (forall c w t toks,
      buildFlagArgs c w = (t, Ret toks) ->
      toks = concat (map (flagTokens c w) (cli.Flags (cli.Command_ c)))) /\
  (forall c w,
      Forall (supported c) (cli.Flags (cli.Command_ c)) ->
      buildFlagArgs c w
      = ([], Ret (concat (map (flagTokens c w) (cli.Flags (cli.Command_ c)))))) /\
  (forall c1 c2 w1 w2,
      cli.Command_ c1 = cli.Command_ c2 ->
      (forall flag name aliases,
          In flag (cli.Flags (cli.Command_ c1)) ->
          cli.Names flag = name :: aliases ->
          same_resolved c1 c2 name) ->
      buildFlagArgs c1 w1 = buildFlagArgs c2 w2) /\
  (forall cmd args (given1 given2 : list (string * cli.Value)) w,
      NoDup given1.*1 ->
      Permutation given1 given2 ->
      buildFlagArgs (cli.parsed cmd args given1) w
      = buildFlagArgs (cli.parsed cmd args given2) w).
Proof.
  repeat split.
  - exact (proj1 buildFlagArgs_in_schema_order).
  - exact (proj2 buildFlagArgs_in_schema_order).
  - intros c1 c2 w1 w2 Hcmd Hsame. unfold buildFlagArgs. rewrite <- Hcmd.
    apply buildFlagArgs_loop_ext. exact Hsame.
  - intros cmd args given1 given2 w Hnodup Hperm. unfold cli.parsed.
    rewrite (list_to_map_proper (M := gmap string) given1 given2 Hnodup Hperm).
    reflexivity.
Qed.

Lemma buildFlagArgs_schema_order_witness :
  buildFlagArgs (example_context "mount" ["/data/myfs"; "/mnt/jfs"])
                (world_with [] (Waited (Exited 0)))
  = ([], Ret ["--trash-days=5"; "--d"; "--o=allow_other"; "--o=ro"; "--bucket="]) /\
  buildFlagArgs (example_context "mount" ["/data/myfs"; "/mnt/jfs"])
                (world_with [] (Waited (Exited 0)))
  = buildFlagArgs
      (cli.parsed {| cli.Name := "mount"; cli.Flags := example_flags |}
                  ["/data/myfs"; "/mnt/jfs"] (rev example_given))
      (world_with [] (Waited (Exited 0))).
Proof.
  destruct buildFlagArgs_schema_order as (_ & Htotal & _ & Horder).
  split.
  - rewrite Htotal; [reflexivity|].
    repeat constructor;
      (eexists _, _; split; [reflexivity | intros _ t; discriminate]).
  - apply Horder.
    + apply (bool_decide_unpack (NoDup example_given.*1)). vm_compute. exact I.
    + apply Permutation_rev.
Defined.



(** The result of [buildFlagArgs] around one flag of the schema: its
    tokens sit between those of the flags declared before it and those of
    the flags declared after it. *)
Lemma buildFlagArgs_around (c : cli.Context) (w : World)
    (pre post : list cli.Flag) (flag : cli.Flag) :
  cli.Flags (cli.Command_ c) = pre ++ flag :: post ->
  (forall t result,
      buildFlagArgs c w = (t, Ret result) ->
      result = concat (map (flagTokens c w) pre) ++ flagTokens c w flag
               ++ concat (map (flagTokens c w) post)) /\
  (Forall (supported c) pre -> supported c flag -> Forall (supported c) post ->
   buildFlagArgs c w
   = ([], Ret (concat (map (flagTokens c w) pre) ++ flagTokens c w flag
               ++ concat (map (flagTokens c w) post)))).
Proof.
  intros Hflags.
  assert (Hsplit : concat (map (flagTokens c w) (cli.Flags (cli.Command_ c)))
                   = concat (map (flagTokens c w) pre) ++ flagTokens c w flag
                     ++ concat (map (flagTokens c w) post))
    by (rewrite Hflags, map_app, concat_app; reflexivity).
  split.
  - intros t result Hrun. rewrite <- Hsplit.
    exact (proj1 buildFlagArgs_in_schema_order c w t result Hrun).
  - intros Hpre Hflag Hpost. rewrite <- Hsplit.
    apply (proj2 buildFlagArgs_in_schema_order c w).
    rewrite Hflags. apply Forall_app. split; [exact Hpre|].
    constructor; assumption.
Qed.

Lemma handled_supported (c : cli.Context) (flag : cli.Flag)
    (name : string) (aliases : list string) :
  cli.Names flag = name :: aliases ->
  (forall t, cli.Type_ flag <> cli.OtherFlag t) ->
  supported c flag.
Proof. intros Hnames Htype. exists name, aliases. auto. Qed.

Lemma flagTokens_of_body (c : cli.Context) (w : World) (flag : cli.Flag)
    (toks : list string) :
  buildFlagArgs_body c [] flag w = ([], Ret toks) -> flagTokens c w flag = toks.
Proof. intros H. unfold flagTokens. rewrite H. reflexivity. Qed.

(** C7: a repeated-string flag the caller set with [n] values makes flag
    reconstruction emit exactly [n] tokens for it, the token at each
    position being [--name=value] for the value at that position of the
    input list: the iteration for the flag appends them, and in the result
    of [buildFlagArgs] they stand, in that order, between the tokens of
    the flags declared before and after it. *)
Theorem string_slice_flag_tokens (c : cli.Context) (w : World)
    (pre post : list cli.Flag) (flag : cli.Flag)
    (name : string) (aliases : list string) :
  cli.Flags (cli.Command_ c) = pre ++ flag :: post ->
  cli.Type_ flag = cli.StringSliceFlag ->
  cli.Names flag = name :: aliases ->
  cli.IsSet c name = true ->
  exists toks : list string,
    length toks = length (cli.StringSlice c name) /\
    (forall (i : nat) (value : string),
        nth_error (cli.StringSlice c name) i = Some value ->
        nth_error toks i = Some ("--" +:+ name +:+ "=" +:+ value)) /\
    (forall args, buildFlagArgs_body c args flag w = ([], Ret (args ++ toks))) /\
    (forall t result,
        buildFlagArgs c w = (t, Ret result) ->
        result = concat (map (flagTokens c w) pre) ++ toks
                 ++ concat (map (flagTokens c w) post)) /\
    (Forall (supported c) pre -> Forall (supported c) post ->
     buildFlagArgs c w
     = ([], Ret (concat (map (flagTokens c w) pre) ++ toks
                 ++ concat (map (flagTokens c w) post)))).
Proof.
  intros Hflags Htype Hnames Hset.
  set (toks := map (fun value => "--" +:+ name +:+ "=" +:+ value)
                   (cli.StringSlice c name)).
  assert (Hbody : forall args,
             buildFlagArgs_body c args flag w = ([], Ret (args ++ toks))).
  { intros args. unfold buildFlagArgs_body, bind, primaryName.
    rewrite Hnames. cbn. rewrite Hset, Htype.
    rewrite (fold_left_append (fun value => "--" +:+ name +:+ "=" +:+ value)).
    reflexivity. }
  pose proof (flagTokens_of_body c w flag toks (Hbody [])) as Htoks.
  destruct (buildFlagArgs_around c w pre post flag Hflags) as [Hret Htotal].
  rewrite Htoks in Hret, Htotal.
  exists toks. split; [apply length_map|]. split.
  { intros i value Hi. unfold toks. rewrite nth_error_map, Hi. reflexivity. }
  split; [exact Hbody|]. split; [exact Hret|].
  intros Hpre Hpost. apply Htotal; [exact Hpre | | exact Hpost].
  apply (handled_supported c flag name aliases Hnames).
  intros t. rewrite Htype. discriminate.
Qed.

Lemma string_slice_flag_tokens_witness :
  exists toks : list string,
    length toks = 2 /\
    nth_error toks 0 = Some "--o=allow_other" /\
    nth_error toks 1 = Some "--o=ro" /\
    buildFlagArgs (example_context "mount" ["/data/myfs"; "/mnt/jfs"])
                  (world_with [] (Waited (Exited 0)))
    = ([], Ret (["--trash-days=5"; "--d"] ++ toks ++ ["--bucket="])).
Proof.
  destruct (string_slice_flag_tokens
              (example_context "mount" ["/data/myfs"; "/mnt/jfs"])
              (world_with [] (Waited (Exited 0)))
              [flag cli.IntFlag ["trash-days"]; flag cli.BoolFlag ["d"; "background"]]
              [flag cli.StringFlag ["bucket"]; flag cli.BoolFlag ["force"]]
              (flag cli.StringSliceFlag ["o"]) "o" []
              eq_refl eq_refl eq_refl eq_refl)
    as (toks & Hlen & Hnth & _ & _ & Htotal).
  exists toks. split; [exact Hlen|].
  split; [exact (Hnth 0 "allow_other" eq_refl)|].
  split; [exact (Hnth 1 "ro" eq_refl)|].
  apply Htotal;
    repeat constructor;
    (eexists _, _; split; [reflexivity | intros _ t; discriminate]).
Defined.

(** C10: a string flag the caller set makes flag reconstruction emit the
    token [--name=value] whatever the value, the empty string included
    (the token is then [--name=]): the iteration for the flag appends it,
    and in the result of [buildFlagArgs] it stands between the tokens of
    the flags declared before and after it. *)
Theorem string_flag_tokens (c : cli.Context) (w : World)
    (pre post : list cli.Flag) (flag : cli.Flag)
    (name : string) (aliases : list string) :
  cli.Flags (cli.Command_ c) = pre ++ flag :: post ->
  cli.Type_ flag = cli.StringFlag ->
  cli.Names flag = name :: aliases ->
  cli.IsSet c name = true ->
  exists tok : string,
    tok = "--" +:+ name +:+ "=" +:+ cli.String c name /\
    (cli.String c name = EmptyString -> tok = "--" +:+ name +:+ "=") /\
    (forall args, buildFlagArgs_body c args flag w = ([], Ret (args ++ [tok]))) /\
    (forall t result,
        buildFlagArgs c w = (t, Ret result) ->
        result = concat (map (flagTokens c w) pre) ++ [tok]
                 ++ concat (map (flagTokens c w) post)) /\
    (Forall (supported c) pre -> Forall (supported c) post ->
     buildFlagArgs c w
     = ([], Ret (concat (map (flagTokens c w) pre) ++ [tok]
                 ++ concat (map (flagTokens c w) post)))).
Proof.
  intros Hflags Htype Hnames Hset.
  assert (Hbody : forall args,
             buildFlagArgs_body c args flag w
             = ([], Ret (args ++ ["--" +:+ name +:+ "=" +:+ cli.String c name]))).
  { intros args. unfold buildFlagArgs_body, bind, primaryName.
    rewrite Hnames. cbn. rewrite Hset, Htype. reflexivity. }
  pose proof (flagTokens_of_body c w flag _ (Hbody [])) as Htoks.
  destruct (buildFlagArgs_around c w pre post flag Hflags) as [Hret Htotal].
  rewrite Htoks in Hret, Htotal.
  exists ("--" +:+ name +:+ "=" +:+ cli.String c name).
  split; [reflexivity|]. split; [intros ->; reflexivity|].
  split; [exact Hbody|]. split; [exact Hret|].
  intros Hpre Hpost. apply Htotal; [exact Hpre | | exact Hpost].
  apply (handled_supported c flag name aliases Hnames).
  intros t. rewrite Htype. discriminate.
Qed.

Lemma string_flag_tokens_witness :
  buildFlagArgs (example_context "format" ["/data/myfs"; "myfs"])
                (world_with [] (Waited (Exited 0)))
  = ([], Ret (["--trash-days=5"; "--d"; "--o=allow_other"; "--o=ro"]
              ++ ["--bucket="] ++ [])).
Proof.
  destruct (string_flag_tokens
              (example_context "format" ["/data/myfs"; "myfs"])
              (world_with [] (Waited (Exited 0)))
              [flag cli.IntFlag ["trash-days"]; flag cli.BoolFlag ["d"; "background"];
               flag cli.StringSliceFlag ["o"]]
              [flag cli.BoolFlag ["force"]]
              (flag cli.StringFlag ["bucket"]) "bucket" []
              eq_refl eq_refl eq_refl eq_refl)
    as (tok & Htok & Hempty & _ & _ & Htotal).
  rewrite (Hempty eq_refl) in Htotal.
  apply Htotal;
    repeat constructor;
    (eexists _, _; split; [reflexivity | intros _ t; discriminate]).
Defined.

(** ** The commands *)

Lemma setup_enough (c : cli.Context) (n : nat) (w : World) :
  n <= cli.NArg c -> setup c n w = ([], Ret tt).
Proof.
  intros H. unfold setup.
  destruct (Nat.ltb_spec (cli.NArg c) n); [lia | reflexivity].
Qed.

Lemma setup_no_run (c : cli.Context) (n : nat) (w : World) (e : Event) :
  In e (trace (setup c n w)) -> ~ is_run e.
Proof.
  unfold setup. destruct (cli.NArg c <? n)%nat; cbn; [|tauto].
  intros [<-|[]] (name & args & H). discriminate H.
Qed.

Lemma validateAbsolutePath_no_run (path : string) (shouldExist : bool)
    (w : World) (e : Event) :
  In e (trace (validateAbsolutePath path shouldExist w)) -> ~ is_run e.
Proof.
  rewrite validateAbsolutePath_run.
  destruct (negb (filepath.IsAbs path)), (shouldExist && negb (os_Stat w path)),
    (negb shouldExist && os_Stat w path); cbn;
    intros H (name & args & ->); intuition discriminate.
Qed.

Lemma buildFlagArgs_body_no_run (c : cli.Context) (args : list string)
    (flag : cli.Flag) (w : World) (e : Event) :
  In e (trace (buildFlagArgs_body c args flag w)) -> ~ is_run e.
Proof.
  unfold buildFlagArgs_body, bind, primaryName.
  destruct (cli.Names flag) as [|name aliases]; cbn; [tauto|].
  destruct (cli.IsSet c name); cbn; [|tauto].
  destruct (cli.Type_ flag); cbn; try tauto.
  - destruct (cli.Bool c name); cbn; tauto.
  - intros [<-|[]] (n & a & H). discriminate H.
Qed.

Lemma buildFlagArgs_loop_no_run (c : cli.Context) (w : World) (e : Event)
    (flags : list cli.Flag) :
  forall args, In e (trace (buildFlagArgs_loop c flags args w)) -> ~ is_run e.
Proof.
  induction flags as [|flag flags IH]; intros args; cbn; [tauto|].
  intros H. apply bind_event in H. destruct H as [H|(a & _ & H)].
  - exact (buildFlagArgs_body_no_run c args flag w e H).
  - exact (IH a H).
Qed.

Lemma buildFlagArgs_Ret (c : cli.Context) (w : World) (flagArgs : list string) :
  outcome (buildFlagArgs c w) = Ret flagArgs ->
  buildFlagArgs c w = ([], Ret flagArgs).
Proof.
  unfold buildFlagArgs.
  destruct (buildFlagArgs_loop c (cli.Flags (cli.Command_ c)) [] w) as [t o] eqn:H.
  cbn. intros ->. apply buildFlagArgs_loop_Ret in H.
  destruct H as [-> _]. reflexivity.
Qed.

Lemma executeJuicefsCommand_event (args : list string) (w : World)
    (name : string) (args' : list string) :
  In (EvRun name args') (trace (executeJuicefsCommand args w)) ->
  os_Executable w = inl name /\ args' = args.
Proof.
  destruct (os_Executable w) as [exe|err] eqn:Hexe.
  - rewrite (executeJuicefsCommand_run args w exe Hexe). cbn.
    intros [H|[H|[H|[]]]]; try discriminate H.
    inversion H. auto.
  - rewrite (executeJuicefsCommand_no_executable args w err Hexe). cbn.
    intros [H|[]]. discriminate H.
Qed.

(** Every child [format] starts is the [format] command on the prefixed
    meta location, the name and the forced flag, followed by the
    reconstructed flags. *)
Lemma pantheonFormat_event (c : cli.Context) (w : World)
    (name : string) (args : list string) :
  In (EvRun name args) (trace (pantheonFormat c w)) ->
  exists flagArgs,
    outcome (buildFlagArgs c w) = Ret flagArgs /\
    args = ["format"; "badger://" +:+ cli.Get c 0; cli.Get c 1; "--trash-days=999"]
           ++ flagArgs.
Proof.
  unfold pantheonFormat. intros H.
  apply bind_event in H. destruct H as [H|(_ & _ & H)].
  { exfalso. apply (setup_no_run _ _ _ _ H). eexists _, _. reflexivity. }
  apply bind_event in H. destruct H as [H|(_ & _ & H)].
  { exfalso. apply (validateAbsolutePath_no_run _ _ _ _ H). eexists _, _. reflexivity. }
  apply bind_event in H. destruct H as [H|(flagArgs & Hflags & H)].
  { exfalso. apply (buildFlagArgs_loop_no_run _ _ _ _ _ H). eexists _, _. reflexivity. }
  apply executeJuicefsCommand_event in H. destruct H as [_ ->].
  exists flagArgs. auto.
Qed.

Lemma pantheonMount_event (c : cli.Context) (w : World)
    (name : string) (args : list string) :
  In (EvRun name args) (trace (pantheonMount c w)) ->
  exists flagArgs,
    outcome (buildFlagArgs c w) = Ret flagArgs /\
    args = ["mount"; "badger://" +:+ cli.Get c 0; cli.Get c 1] ++ flagArgs.
Proof.
  unfold pantheonMount. intros H.
  apply bind_event in H. destruct H as [H|(_ & _ & H)].
  { exfalso. apply (setup_no_run _ _ _ _ H). eexists _, _. reflexivity. }
  apply bind_event in H. destruct H as [H|(_ & _ & H)].
  { exfalso. apply (validateAbsolutePath_no_run _ _ _ _ H). eexists _, _. reflexivity. }
  apply bind_event in H. destruct H as [H|(flagArgs & Hflags & H)].
  { exfalso. apply (buildFlagArgs_loop_no_run _ _ _ _ _ H). eexists _, _. reflexivity. }
  apply executeJuicefsCommand_event in H. destruct H as [_ ->].
  exists flagArgs. auto.
Qed.

(** What [format] and [mount] do when nothing stops them. *)
Lemma pantheonFormat_run (c : cli.Context) (w : World) (exe : string)
    (flagArgs : list string) :
  2 <= cli.NArg c ->
  filepath.IsAbs (beforeQuery (cli.Get c 0)) = true ->
  os_Stat w (beforeQuery (cli.Get c 0)) = false ->
  outcome (buildFlagArgs c w) = Ret flagArgs ->
  os_Executable w = inl exe ->
  trace (pantheonFormat c w)
  = [EvStat (beforeQuery (cli.Get c 0)); EvNotify;
     EvRun exe (["format"; "badger://" +:+ cli.Get c 0; cli.Get c 1;
                 "--trash-days=999"] ++ flagArgs);
     EvStop].
Proof.
  intros Hn Habs Hstat Hflags Hexe. unfold pantheonFormat.
  rewrite (bind_Ret _ _ w _ _ (setup_enough c 2 w Hn)).
  rewrite metaDirWithoutQuery_beforeQuery.
  unfold bind at 1. rewrite validateAbsolutePath_run, Habs, Hstat. cbn [negb andb].
  unfold bind at 1. rewrite (buildFlagArgs_Ret c w flagArgs Hflags).
  rewrite (executeJuicefsCommand_run _ w exe Hexe). reflexivity.
Qed.

Lemma pantheonMount_run (c : cli.Context) (w : World) (exe : string)
    (flagArgs : list string) :
  2 <= cli.NArg c ->
  filepath.IsAbs (beforeQuery (cli.Get c 0)) = true ->
  os_Stat w (beforeQuery (cli.Get c 0)) = true ->
  outcome (buildFlagArgs c w) = Ret flagArgs ->
  os_Executable w = inl exe ->
  trace (pantheonMount c w)
  = [EvStat (beforeQuery (cli.Get c 0)); EvNotify;
     EvRun exe (["mount"; "badger://" +:+ cli.Get c 0; cli.Get c 1] ++ flagArgs);
     EvStop].
Proof.
  intros Hn Habs Hstat Hflags Hexe. unfold pantheonMount.
  rewrite (bind_Ret _ _ w _ _ (setup_enough c 2 w Hn)).
  rewrite metaDirWithoutQuery_beforeQuery.
  unfold bind at 1. rewrite validateAbsolutePath_run, Habs, Hstat. cbn [negb andb].
  unfold bind at 1. rewrite (buildFlagArgs_Ret c w flagArgs Hflags).
  rewrite (executeJuicefsCommand_run _ w exe Hexe). reflexivity.
Qed.

(** C8: whenever [format] or [mount] starts the target command, the token
    after the command name is the caller's meta location as given, query
    suffix included, behind the literal prefix [badger://]; and they do
    start it, with that token, once the checks pass and the executable is
    known. *)
Theorem meta_location_token (c : cli.Context) (w : World) :
  (forall name args,
      In (EvRun name args) (trace (pantheonFormat c w)) ->
      exists rest, args = "format" :: ("badger://" +:+ cli.Get c 0) :: rest) /\
  (forall name args,
      In (EvRun name args) (trace (pantheonMount c w)) ->
      exists rest, args = "mount" :: ("badger://" +:+ cli.Get c 0) :: rest) /\
  (forall exe flagArgs,
      2 <= cli.NArg c ->
      filepath.IsAbs (beforeQuery (cli.Get c 0)) = true ->
      outcome (buildFlagArgs c w) = Ret flagArgs ->
      os_Executable w = inl exe ->
      (os_Stat w (beforeQuery (cli.Get c 0)) = false ->
       In (EvRun exe ("format" :: ("badger://" +:+ cli.Get c 0) :: cli.Get c 1
                      :: "--trash-days=999" :: flagArgs))
          (trace (pantheonFormat c w))) /\
      (os_Stat w (beforeQuery (cli.Get c 0)) = true ->
       In (EvRun exe ("mount" :: ("badger://" +:+ cli.Get c 0) :: cli.Get c 1
                      :: flagArgs))
          (trace (pantheonMount c w)))).
Proof.
  split; [|split].
  - intros name args H. apply pantheonFormat_event in H.
    destruct H as (flagArgs & _ & ->). eexists. reflexivity.
  - intros name args H. apply pantheonMount_event in H.
    destruct H as (flagArgs & _ & ->). eexists. reflexivity.
  - intros exe flagArgs Hn Habs Hflags Hexe. split; intros Hstat.
    + rewrite (pantheonFormat_run c w exe flagArgs Hn Habs Hstat Hflags Hexe).
      cbn. auto.
    + rewrite (pantheonMount_run c w exe flagArgs Hn Habs Hstat Hflags Hexe).
      cbn. auto.
Qed.

Lemma meta_location_token_witness :
  In (EvRun "/usr/local/bin/juicefs"
        ["mount"; "badger:///data/myfs?x=1"; "/data/branch"])
     (trace (pantheonMount (query_context "mount") query_world)) /\
  exists rest,
    ["mount"; "badger:///data/myfs?x=1"; "/data/branch"]
    = "mount" :: ("badger://" +:+ "/data/myfs?x=1") :: rest.
Proof.
  destruct (meta_location_token (query_context "mount") query_world)
    as (_ & Hmount & Hruns).
  assert (Hin : In (EvRun "/usr/local/bin/juicefs"
                      ["mount"; "badger:///data/myfs?x=1"; "/data/branch"])
                   (trace (pantheonMount (query_context "mount") query_world))).
  { apply (proj2 (Hruns "/usr/local/bin/juicefs" []
                    (le_n 2) eq_refl eq_refl eq_refl)).
    reflexivity. }
  split; [exact Hin|].
  exact (Hmount _ _ Hin).
Defined.

(** ** The forced trash retention of [format] *)

(** A token of a flag is [--name] or [--name=value], for the primary name
    of a flag the caller set. *)
Lemma flagTokens_shape (c : cli.Context) (w : World) (flag : cli.Flag) (tok : string) :
  In tok (flagTokens c w flag) ->
  exists name aliases,
    cli.Names flag = name :: aliases /\
    cli.IsSet c name = true /\
    (tok = "--" +:+ name \/ exists value, tok = "--" +:+ name +:+ "=" +:+ value).
Proof.
  unfold flagTokens, buildFlagArgs_body, bind, primaryName.
  destruct (cli.Names flag) as [|name aliases]; cbn; [tauto|].
  destruct (cli.IsSet c name) eqn:Hset; cbn; [|tauto].
  intros H. exists name, aliases. split; [reflexivity|]. split; [exact Hset|].
  revert H.
  destruct (cli.Type_ flag); cbn; try tauto;
    try (intros [<-|[]]; right; eexists; reflexivity).
  - destruct (cli.Bool c name); cbn; [|tauto].
    intros [<-|[]]. left. reflexivity.
  - rewrite (fold_left_append (fun value => "--" +:+ name +:+ "=" +:+ value)).
    cbn. intros H. apply in_map_iff in H. destruct H as (value & <- & _).
    right. eexists. reflexivity.
Qed.

Lemma prefix_before_equals (p : string) :
  no_equals p = true ->
  forall name value : string,
    String.prefix p (name +:+ "=" +:+ value) = true -> String.prefix p name = true.
Proof.
  induction p as [|a p IH]; intros Hp name value H.
  - destruct name; reflexivity.
  - cbn in Hp. apply andb_prop in Hp. destruct Hp as [Ha Hp].
    destruct name as [|b name].
    + change (String.prefix (String a p) (String "=" value) = true) in H.
      cbn [String.prefix] in H.
      destruct (ascii_dec a "="%char) as [->|_];
        [vm_compute in Ha; discriminate Ha | discriminate H].
    + change (String.prefix (String a p)
                (String b (name +:+ "=" +:+ value)) = true) in H.
      cbn [String.prefix] in H |- *.
      destruct (ascii_dec a b); [|discriminate H].
      exact (IH Hp name value H).
Qed.

(** C1, as stated, fails: the schema of [format] is that of the target
    command, which has the flag [trash-days]; when the caller sets it,
    its token follows the forced one in the same invocation. *)
Lemma forced_trash_days_counterexample :
  trace (pantheonFormat trash_days_context (world_with [] (Waited (Exited 0))))
  = [EvStat "/data/myfs"; EvNotify;
     EvRun "/usr/local/bin/juicefs"
       ["format"; "badger:///data/myfs"; "myfs";
        "--trash-days=999"; "--trash-days=5"];
     EvStop].
Proof. reflexivity. Qed.

Lemma filter_none {A} (f : A -> bool) (l : list A) :
  (forall x, In x l -> f x = false) -> List.filter f l = [].
Proof.
  induction l as [|a l IH]; intros H; [reflexivity|].
  cbn [List.filter]. rewrite (H a (or_introl eq_refl)).
  apply IH. intros x Hx. apply H. right. exact Hx.
Qed.

(** No token reconstructed from the flags begins with [--trash-days]
    when the caller set no flag whose primary name begins with
    [trash-days]. *)
Lemma flag_tokens_not_trash_days (c : cli.Context) (w : World)
    (flagArgs : list string) :
  outcome (buildFlagArgs c w) = Ret flagArgs ->
  (forall flag n aliases,
      In flag (cli.Flags (cli.Command_ c)) ->
      cli.Names flag = n :: aliases ->
      cli.IsSet c n = true ->
      String.prefix "trash-days" n = false) ->
  forall tok, In tok flagArgs -> String.prefix "--trash-days" tok = false.
Proof.
  intros Hflags Hnone tok Htok.
  apply buildFlagArgs_Ret in Hflags.
  apply (proj1 buildFlagArgs_in_schema_order) in Hflags. subst flagArgs.
  apply in_concat in Htok. destruct Htok as (toks & Htoks & Htok).
  apply in_map_iff in Htoks. destruct Htoks as (flag & <- & Hflag).
  apply flagTokens_shape in Htok.
  destruct Htok as (n & aliases & Hnames & Hset & Hshape).
  specialize (Hnone flag n aliases Hflag Hnames Hset).
  destruct Hshape as [->|(value & ->)].
  - change (String.prefix "trash-days" n = false). exact Hnone.
  - change (String.prefix "trash-days" (n +:+ "=" +:+ value) = false).
    destruct (String.prefix "trash-days" (n +:+ "=" +:+ value)) eqn:Hp;
      [|reflexivity].
    apply (prefix_before_equals "trash-days" eq_refl) in Hp. congruence.
Qed.

(** The token of the integer flag [trash-days], when the caller set it,
    is among the reconstructed flags. *)
Lemma trash_days_flag_token (c : cli.Context) (w : World)
    (flagArgs : list string) (flag : cli.Flag) (aliases : list string) :
  outcome (buildFlagArgs c w) = Ret flagArgs ->
  In flag (cli.Flags (cli.Command_ c)) ->
  cli.Names flag = "trash-days" :: aliases ->
  cli.Type_ flag = cli.IntFlag ->
  cli.IsSet c "trash-days" = true ->
  In ("--trash-days=" +:+ fmt.d (cli.Int c "trash-days")) flagArgs.
Proof.
  intros Hflags Hflag Hnames Htype Hset.
  apply buildFlagArgs_Ret in Hflags.
  apply (proj1 buildFlagArgs_in_schema_order) in Hflags. subst flagArgs.
  apply in_concat. exists (flagTokens c w flag). split.
  - apply in_map. exact Hflag.
  - unfold flagTokens, buildFlagArgs_body, bind, primaryName.
    rewrite Hnames. cbn. rewrite Hset, Htype. left. reflexivity.
Qed.

(** C1, amended: every target invocation of [format] is the command name,
    the prefixed meta location, the volume name, then the token
    [--trash-days=999], then the tokens reconstructed from the caller's
    flags: the forced token is always there, fourth, before every
    reconstructed flag token.  It is the only token of the invocation
    beginning with [--trash-days] when the caller set no flag whose primary
    name begins with [trash-days] and the volume name does not itself begin
    with [--trash-days].  When the caller set the integer flag
    [trash-days] of the schema, its token [--trash-days=VALUE] is among the
    reconstructed flags, after the forced one in the same invocation. *)
Theorem forced_trash_days_first (c : cli.Context) (w : World)
    (name : string) (args : list string) :
  In (EvRun name args) (trace (pantheonFormat c w)) ->
  exists flagArgs : list string,
    outcome (buildFlagArgs c w) = Ret flagArgs /\
    args = ["format"; "badger://" +:+ cli.Get c 0; cli.Get c 1; "--trash-days=999"]
           ++ flagArgs /\
    nth_error args 3 = Some "--trash-days=999" /\
    ((forall flag n aliases,
         In flag (cli.Flags (cli.Command_ c)) ->
         cli.Names flag = n :: aliases ->
         cli.IsSet c n = true ->
         String.prefix "trash-days" n = false) ->
     String.prefix "--trash-days" (cli.Get c 1) = false ->
     List.filter (String.prefix "--trash-days") args = ["--trash-days=999"]) /\
    (forall flag aliases,
        In flag (cli.Flags (cli.Command_ c)) ->
        cli.Names flag = "trash-days" :: aliases ->
        cli.Type_ flag = cli.IntFlag ->
        cli.IsSet c "trash-days" = true ->
        In ("--trash-days=" +:+ fmt.d (cli.Int c "trash-days")) flagArgs).
Proof.
  intros H. apply pantheonFormat_event in H.
  destruct H as (flagArgs & Hflags & ->).
  exists flagArgs. split; [exact Hflags|]. split; [reflexivity|].
  split; [reflexivity|]. split.
  - intros Hnone Hname.
    rewrite List.filter_app.
    rewrite (filter_none _ flagArgs (flag_tokens_not_trash_days c w flagArgs Hflags Hnone)).
    cbn [List.filter]. rewrite Hname.
    change (String.prefix "--trash-days" ("badger://" +:+ cli.Get c 0)) with false.
    reflexivity.
  - intros flag aliases.
    exact (trash_days_flag_token c w flagArgs flag aliases Hflags).
Qed.

Lemma forced_trash_days_first_witness :
  List.filter (String.prefix "--trash-days")
    ["format"; "badger:///data/myfs"; "myfs"; "--trash-days=999"; "--d"]
  = ["--trash-days=999"] /\
  exists flagArgs : list string,
    ["format"; "badger:///data/myfs"; "myfs"; "--trash-days=999"; "--trash-days=5"]
    = ["format"; "badger://" +:+ "/data/myfs"; "myfs"; "--trash-days=999"]
      ++ flagArgs /\
    In ("--trash-days=" +:+ fmt.d 5) flagArgs.
Proof.
  split.
  - assert (Hin : In (EvRun "/usr/local/bin/juicefs"
                        ["format"; "badger:///data/myfs"; "myfs";
                         "--trash-days=999"; "--d"])
                     (trace (pantheonFormat background_context
                               (world_with [] (Waited (Exited 0))))))
      by (right; right; left; reflexivity).
    destruct (forced_trash_days_first _ _ _ _ Hin)
      as (flagArgs & _ & _ & _ & Honly & _).
    apply Honly; [|reflexivity].
    intros flag n aliases Hflag Hnames Hset.
    cbn in Hflag.
    destruct Hflag as [<-|[<-|[<-|[<-|[<-|[]]]]]];
      inversion Hnames; subst; clear Hnames;
      first [reflexivity | vm_compute in Hset; discriminate Hset].
  - assert (Hin : In (EvRun "/usr/local/bin/juicefs"
                        ["format"; "badger:///data/myfs"; "myfs";
                         "--trash-days=999"; "--trash-days=5"])
                     (trace (pantheonFormat trash_days_context
                               (world_with [] (Waited (Exited 0))))))
      by (right; right; left; reflexivity).
    destruct (forced_trash_days_first _ _ _ _ Hin)
      as (flagArgs & _ & Hargs & _ & _ & Hcaller).
    exists flagArgs. split; [exact Hargs|].
    exact (Hcaller (flag cli.IntFlag ["trash-days"]) []
             (or_introl eq_refl) eq_refl eq_refl eq_refl).
Defined.

(** ** The paths the commands validate *)



Lemma after_setup {A} (c : cli.Context) (n : nat) (w : World) (k : M A) :
  n <= cli.NArg c -> bind (setup c n) (fun _ => k) w = k w.
Proof.
  intros H. rewrite (bind_Ret _ _ w _ _ (setup_enough c n w H)).
  destruct (k w); reflexivity.
Qed.




(** * Further properties of [cmd/pantheon.go] *)

(** ** metaDirWithoutQuery *)

Lemma query_index_None (b : ascii) (r : string) :
  query_index (String b r) = None ->
  Ascii.eqb b "?" = false /\ query_index r = None.
Proof.
  cbn [query_index]. destruct (Ascii.eqb b "?"); [discriminate|].
  destruct (query_index r); [discriminate | auto].
Qed.

Lemma beforeQuery_no_query (s : string) :
  query_index s = None -> beforeQuery s = s.
Proof.
  intros H. pose proof (slice_to_query_index s) as Hs.
  rewrite H in Hs. symmetry. exact Hs.
Qed.

Lemma beforeQuery_cut (dir q : string) :
  query_index dir = None -> beforeQuery (dir +:+ "?" +:+ q) = dir.
Proof.
  induction dir as [|b r IH]; intros H; [reflexivity|].
  apply query_index_None in H. destruct H as [Hb Hr].
  change (beforeQuery (String b (r +:+ "?" +:+ q)) = String b r).
  cbn [beforeQuery]. rewrite Hb, (IH Hr). reflexivity.
Qed.

Lemma beforeQuery_clean (s : string) : query_index (beforeQuery s) = None.
Proof.
  induction s as [|b r IH]; [reflexivity|].
  cbn [beforeQuery]. destruct (Ascii.eqb b "?") eqn:Hb; [reflexivity|].
  cbn [query_index]. rewrite Hb, IH. reflexivity.
Qed.

Lemma beforeQuery_prefix (s : string) :
  exists rest : string,
    s = beforeQuery s +:+ rest /\
    (rest = EmptyString \/ exists q, rest = String "?" q).
Proof.
  induction s as [|b r (rest & Hr & Hrest)].
  - exists EmptyString. auto.
  - cbn [beforeQuery]. destruct (Ascii.eqb_spec b "?"%char) as [->|_].
    + exists (String "?" r). split; [reflexivity|]. right. eexists. reflexivity.
    + exists rest. split; [|exact Hrest].
      change (String b r = String b (beforeQuery r +:+ rest)).
      rewrite <- Hr. reflexivity.
Qed.

(** X1: [metaDirWithoutQuery] cuts at the first ['?'] byte and nowhere
    else, whatever the other bytes are (valid UTF-8 or not): a value with
    no ['?'] comes back unchanged, and a value [dir?q] whose [dir] has no
    ['?'] comes back as [dir]. *)
Theorem metaDirWithoutQuery_cut (dir q : string) :
  query_index dir = None ->
  metaDirWithoutQuery dir = dir /\
  metaDirWithoutQuery (dir +:+ "?" +:+ q) = dir.
Proof.
  intros H. rewrite !metaDirWithoutQuery_beforeQuery. split.
  - apply beforeQuery_no_query, H.
  - apply beforeQuery_cut, H.
Qed.

Lemma metaDirWithoutQuery_cut_witness :
  metaDirWithoutQuery (String (ascii_of_nat 226) "/myfs")
  = String (ascii_of_nat 226) "/myfs" /\
  metaDirWithoutQuery (String (ascii_of_nat 226) "/myfs" +:+ "?" +:+ "a=1?b")
  = String (ascii_of_nat 226) "/myfs".
Proof.
  exact (metaDirWithoutQuery_cut (String (ascii_of_nat 226) "/myfs") "a=1?b" eq_refl).
Defined.

(** X2: the result of [metaDirWithoutQuery] has no ['?'], is a prefix of
    the argument (what it drops is nothing, or starts with the ['?']), and
    stripping it again changes nothing. *)
Theorem metaDirWithoutQuery_idempotent (metaDir : string) :
  query_index (metaDirWithoutQuery metaDir) = None /\
  metaDirWithoutQuery (metaDirWithoutQuery metaDir) = metaDirWithoutQuery metaDir /\
  exists rest : string,
    metaDir = metaDirWithoutQuery metaDir +:+ rest /\
    (rest = EmptyString \/ exists q, rest = String "?" q).
Proof.
  rewrite !metaDirWithoutQuery_beforeQuery.
  split; [apply beforeQuery_clean|].
  split; [apply beforeQuery_no_query, beforeQuery_clean|].
  apply beforeQuery_prefix.
Qed.

Lemma beforeQuery_IsAbs (s : string) :
  filepath.IsAbs (beforeQuery s) = filepath.IsAbs s.
Proof.
  unfold filepath.IsAbs.
  destruct s as [|b r]; [reflexivity|].
  cbn [beforeQuery]. destruct (Ascii.eqb_spec b "?"%char) as [->|_].
  - reflexivity.
  - cbn [String.prefix]. destruct (ascii_dec "/" b); [|reflexivity].
    destruct (beforeQuery r); destruct r; reflexivity.
Qed.

(** X3: stripping the query suffix never changes whether the path is
    absolute: the path [format] and [mount] check for absoluteness is
    absolute exactly when the caller's value is. *)
Theorem metaDirWithoutQuery_IsAbs (metaDir : string) :
  filepath.IsAbs (metaDirWithoutQuery metaDir) = filepath.IsAbs metaDir.
Proof.
  rewrite metaDirWithoutQuery_beforeQuery. apply beforeQuery_IsAbs.
Qed.

(** ** validateAbsolutePath *)

(** X4: the absoluteness check comes first.  A path that is not absolute
    is reported as such and the file system is never probed, whether the
    path exists and whatever [shouldExist]; an absolute path is probed
    exactly once, under its own name. *)
Theorem validateAbsolutePath_probes (path : string) (shouldExist : bool) (w : World) :
  probes (trace (validateAbsolutePath path shouldExist w))
  = (if filepath.IsAbs path then [path] else []) /\
  (filepath.IsAbs path = false ->
   validateAbsolutePath path shouldExist w
   = ([EvFatalf ("path must be absolute: " +:+ path)], Halt 1%Z)).
Proof.
  rewrite validateAbsolutePath_run. split.
  - destruct (filepath.IsAbs path), shouldExist, (os_Stat w path); reflexivity.
  - intros ->. reflexivity.
Qed.

Lemma validateAbsolutePath_probes_witness :
  validateAbsolutePath "data/myfs" false (world_with [] (Waited (Exited 0)))
  = ([EvFatalf "path must be absolute: data/myfs"], Halt 1%Z).
Proof.
  exact (proj2 (validateAbsolutePath_probes "data/myfs" false
                  (world_with [] (Waited (Exited 0)))) eq_refl).
Defined.

(** ** buildFlagArgs, continued *)

Lemma unset_supported (c : cli.Context) (flag : cli.Flag) :
  unset c flag -> supported c flag.
Proof.
  intros (name & aliases & Hnames & Hset).
  exists name, aliases. split; [exact Hnames|].
  rewrite Hset. discriminate.
Qed.

Lemma unset_flagTokens (c : cli.Context) (w : World) (flag : cli.Flag) :
  unset c flag -> flagTokens c w flag = [].
Proof.
  intros (name & aliases & Hnames & Hset).
  unfold flagTokens, buildFlagArgs_body, bind, primaryName.
  rewrite Hnames. cbn. rewrite Hset. reflexivity.
Qed.

Lemma unset_body (c : cli.Context) (w : World) (flag : cli.Flag) (args : list string) :
  unset c flag -> buildFlagArgs_body c args flag w = ([], Ret args).
Proof.
  intros (name & aliases & Hnames & Hset).
  unfold buildFlagArgs_body, bind, primaryName.
  rewrite Hnames. cbn. rewrite Hset. reflexivity.
Qed.

(** X5: when the caller set none of the flags of the schema,
    [buildFlagArgs] returns no token and logs nothing, whatever the types
    in the schema, the ones the switch does not handle included. *)
Theorem buildFlagArgs_nothing_set (c : cli.Context) (w : World) :
  Forall (unset c) (cli.Flags (cli.Command_ c)) ->
  buildFlagArgs c w = ([], Ret []).
Proof.
  intros Hunset.
  rewrite (proj2 buildFlagArgs_in_schema_order c w)
    by (eapply Forall_impl; [exact Hunset | intros x; apply unset_supported]).
  f_equal. f_equal.
  induction Hunset as [|flag flags Hflag _ IH]; [reflexivity|].
  cbn [map concat]. rewrite (unset_flagTokens c w flag Hflag). exact IH.
Qed.

Lemma buildFlagArgs_nothing_set_witness :
  buildFlagArgs (duration_context []) (world_with [] (Waited (Exited 0)))
  = ([], Ret []).
Proof.
  apply buildFlagArgs_nothing_set.
  repeat constructor; (eexists _, _; split; reflexivity).
Defined.

(** X6: a flag the caller set whose type the switch does not handle ends
    the process: with the flags before it in the schema handled,
    [buildFlagArgs] logs the one fatal message naming the flag and its
    type, exits with status 1 and returns no tokens, whatever follows in
    the schema. *)
Theorem unsupported_flag_fatal (c : cli.Context) (w : World)
    (pre post : list cli.Flag) (flag : cli.Flag)
    (name t : string) (aliases : list string) :
  cli.Flags (cli.Command_ c) = pre ++ flag :: post ->
  Forall (supported c) pre ->
  cli.Names flag = name :: aliases ->
  cli.Type_ flag = cli.OtherFlag t ->
  cli.IsSet c name = true ->
  buildFlagArgs c w
  = ([EvFatalf ("unsupported flag type for flag " +:+ name +:+ ": " +:+ t)],
     Halt 1%Z).
Proof.
  intros Hflags Hpre Hnames Htype Hset.
  unfold buildFlagArgs. rewrite Hflags, buildFlagArgs_loop_app.
  unfold bind. rewrite (buildFlagArgs_loop_supported c w pre Hpre).
  cbn [buildFlagArgs_loop]. unfold bind.
  assert (Hbody : forall args,
             buildFlagArgs_body c args flag w
             = ([EvFatalf ("unsupported flag type for flag " +:+ name +:+ ": " +:+ t)],
                Halt 1%Z)).
  { intros args. unfold buildFlagArgs_body, bind, primaryName.
    rewrite Hnames. cbn. rewrite Hset, Htype. reflexivity. }
  rewrite Hbody. reflexivity.
Qed.

Lemma unsupported_flag_fatal_witness :
  buildFlagArgs
    (duration_context [("heartbeat", cli.VString "12s"); ("d", cli.VBool true);
                       ("inodes", cli.VInt64 0)])
    (world_with [] (Waited (Exited 0)))
  = ([EvFatalf "unsupported flag type for flag heartbeat: *cli.DurationFlag"],
     Halt 1%Z).
Proof.
  apply (unsupported_flag_fatal _ _
           [flag cli.BoolFlag ["d"; "background"]]
           [flag cli.Int64Flag ["inodes"]; flag cli.IntFlag ["max-uploads"]]
           (flag (cli.OtherFlag "*cli.DurationFlag") ["heartbeat"])
           "heartbeat" "*cli.DurationFlag" []);
    try reflexivity.
  repeat constructor. eexists _, _. split; [reflexivity|]. discriminate.
Defined.

(** X7: a flag the caller did not set adds nothing, whatever its type: the
    result of the loop is that of the schema without the flag, also for a
    type the switch does not handle. *)
Theorem unset_flag_skipped (c : cli.Context) (w : World)
    (pre post : list cli.Flag) (flag : cli.Flag) (args : list string) :
  unset c flag ->
  buildFlagArgs_loop c (pre ++ flag :: post) args w
  = buildFlagArgs_loop c (pre ++ post) args w.
Proof.
  intros Hunset. rewrite !buildFlagArgs_loop_app. unfold bind.
  destruct (buildFlagArgs_loop c pre args w) as [t [a|n|e]]; try reflexivity.
  cbn [buildFlagArgs_loop]. unfold bind.
  rewrite (unset_body c w flag a Hunset).
  destruct (buildFlagArgs_loop c post a w); reflexivity.
Qed.

Lemma unset_flag_skipped_witness :
  buildFlagArgs (duration_context [("inodes", cli.VInt64 0); ("d", cli.VBool true)])
                (world_with [] (Waited (Exited 0)))
  = buildFlagArgs_loop
      (duration_context [("inodes", cli.VInt64 0); ("d", cli.VBool true)])
      [flag cli.BoolFlag ["d"; "background"]; flag cli.Int64Flag ["inodes"];
       flag cli.IntFlag ["max-uploads"]]
      [] (world_with [] (Waited (Exited 0))).
Proof.
  apply (unset_flag_skipped _ _ [flag cli.BoolFlag ["d"; "background"]]
           [flag cli.Int64Flag ["inodes"]; flag cli.IntFlag ["max-uploads"]]
           (flag (cli.OtherFlag "*cli.DurationFlag") ["heartbeat"]) []).
  eexists _, _. split; reflexivity.
Defined.

(** X8: an integer flag the caller set makes flag reconstruction emit the
    token [--name=] followed by the value in decimal, for [int] and
    [int64] flags alike; emission is decided by set-ness, so a flag set to
    0 emits [--name=0].  The iteration for the flag appends the token, and
    in the result of [buildFlagArgs] it stands between the tokens of the
    flags declared before and after it. *)
Theorem int_flag_tokens (c : cli.Context) (w : World)
    (pre post : list cli.Flag) (flag : cli.Flag)
    (name : string) (aliases : list string) :
  cli.Flags (cli.Command_ c) = pre ++ flag :: post ->
  cli.Type_ flag = cli.IntFlag \/ cli.Type_ flag = cli.Int64Flag ->
  cli.Names flag = name :: aliases ->
  cli.IsSet c name = true ->
  exists value : Z,
    (cli.Type_ flag = cli.IntFlag -> value = cli.Int c name) /\
    (cli.Type_ flag = cli.Int64Flag -> value = cli.Int64 c name) /\
    (value = 0%Z -> "--" +:+ name +:+ "=" +:+ fmt.d value = "--" +:+ name +:+ "=0") /\
    (forall args,
        buildFlagArgs_body c args flag w
        = ([], Ret (args ++ ["--" +:+ name +:+ "=" +:+ fmt.d value]))) /\
    (forall t result,
        buildFlagArgs c w = (t, Ret result) ->
        result = concat (map (flagTokens c w) pre)
                 ++ ["--" +:+ name +:+ "=" +:+ fmt.d value]
                 ++ concat (map (flagTokens c w) post)) /\
    (Forall (supported c) pre -> Forall (supported c) post ->
     buildFlagArgs c w
     = ([], Ret (concat (map (flagTokens c w) pre)
                 ++ ["--" +:+ name +:+ "=" +:+ fmt.d value]
                 ++ concat (map (flagTokens c w) post)))).
Proof.
  intros Hflags Htype Hnames Hset.
  exists (match cli.Type_ flag with
          | cli.Int64Flag => cli.Int64 c name
          | _ => cli.Int c name
          end).
  assert (Hbody : forall args,
             buildFlagArgs_body c args flag w
             = ([], Ret (args ++ ["--" +:+ name +:+ "="
                                  +:+ fmt.d (match cli.Type_ flag with
                                             | cli.Int64Flag => cli.Int64 c name
                                             | _ => cli.Int c name
                                             end)]))).
  { intros args. unfold buildFlagArgs_body, bind, primaryName.
    rewrite Hnames. cbn. rewrite Hset.
    destruct Htype as [-> | ->]; reflexivity. }
  pose proof (flagTokens_of_body c w flag _ (Hbody [])) as Htoks.
  destruct (buildFlagArgs_around c w pre post flag Hflags) as [Hret Htotal].
  rewrite Htoks in Hret, Htotal.
  split; [intros ->; reflexivity|]. split; [intros ->; reflexivity|].
  split; [intros ->; reflexivity|].
  split; [exact Hbody|]. split; [exact Hret|].
  intros Hpre Hpost. apply Htotal; [exact Hpre | | exact Hpost].
  apply (handled_supported c flag name aliases Hnames).
  intros t. destruct Htype as [-> | ->]; discriminate.
Qed.

Lemma int_flag_tokens_witness :
  buildFlagArgs integers_context (world_with [] (Waited (Exited 0)))
  = ([], Ret ([] ++ ["--inodes=0"] ++ ["--max-uploads=-3"])).
Proof.
  destruct (int_flag_tokens integers_context (world_with [] (Waited (Exited 0)))
              [flag cli.BoolFlag ["d"; "background"];
               flag (cli.OtherFlag "*cli.DurationFlag") ["heartbeat"]]
              [flag cli.IntFlag ["max-uploads"]]
              (flag cli.Int64Flag ["inodes"]) "inodes" []
              eq_refl (or_intror eq_refl) eq_refl eq_refl)
    as (value & _ & Hvalue & Hzero & _ & _ & Htotal).
  rewrite (Hvalue eq_refl) in Htotal.
  apply Htotal.
  - repeat constructor; (eexists _, _; split; [reflexivity|]);
      first [intros _ t; discriminate | intros Hset; discriminate Hset].
  - repeat constructor. eexists _, _. split; [reflexivity|].
    intros _ t. discriminate.
Defined.

(** X9: [buildFlagArgs] never makes up a token: every token it returns is
    [--name] or [--name=value] for the primary name of a flag of the
    schema that the caller set. *)
Theorem buildFlagArgs_tokens_of_set_flags (c : cli.Context) (w : World)
    (t : list Event) (toks : list string) (tok : string) :
  buildFlagArgs c w = (t, Ret toks) ->
  In tok toks ->
  exists flag name aliases,
    In flag (cli.Flags (cli.Command_ c)) /\
    cli.Names flag = name :: aliases /\
    cli.IsSet c name = true /\
    (tok = "--" +:+ name \/ exists value, tok = "--" +:+ name +:+ "=" +:+ value).
Proof.
  intros Hrun Htok.
  apply (proj1 buildFlagArgs_in_schema_order) in Hrun. subst toks.
  apply in_concat in Htok. destruct Htok as (toks & Htoks & Htok).
  apply in_map_iff in Htoks. destruct Htoks as (flag & <- & Hflag).
  apply flagTokens_shape in Htok.
  destruct Htok as (name & aliases & Hnames & Hset & Hshape).
  exists flag, name, aliases. auto.
Qed.

Lemma buildFlagArgs_tokens_of_set_flags_witness :
  exists flag name aliases,
    In flag example_flags /\
    cli.Names flag = name :: aliases /\
    cli.IsSet (example_context "mount" ["/data/myfs"; "/mnt/jfs"]) name = true /\
    ("--o=ro" = "--" +:+ name \/ exists value, "--o=ro" = "--" +:+ name +:+ "=" +:+ value).
Proof.
  apply (buildFlagArgs_tokens_of_set_flags
           (example_context "mount" ["/data/myfs"; "/mnt/jfs"])
           (world_with [] (Waited (Exited 0))) []
           ["--trash-days=5"; "--d"; "--o=allow_other"; "--o=ro"; "--bucket="]
           "--o=ro").
  - reflexivity.
  - cbn. auto.
Defined.


(** ** The commands, continued *)

Lemma trace_bind {A B} (m : M A) (k : A -> M B) (w : World) :
  trace (bind m k w)
  = trace (m w) ++ match outcome (m w) with
                   | Ret a => trace (k a w)
                   | _ => []
                   end.
Proof.
  unfold bind. destruct (m w) as [t [a|n|e]]; cbn;
    [destruct (k a w); reflexivity | rewrite app_nil_r; reflexivity..].
Qed.

Lemma outcome_bind {A B} (m : M A) (k : A -> M B) (w : World) :
  outcome (bind m k w)
  = match outcome (m w) with
    | Ret a => outcome (k a w)
    | Halt n => Halt n
    | Panic e => Panic e
    end.
Proof.
  unfold bind. destruct (m w) as [t [a|n|e]]; cbn;
    [destruct (k a w); reflexivity | reflexivity..].
Qed.

Lemma probes_app (t1 t2 : list Event) : probes (t1 ++ t2) = probes t1 ++ probes t2.
Proof.
  induction t1 as [|e t1 IH]; [reflexivity|].
  destruct e; cbn; rewrite IH; reflexivity.
Qed.

Lemma children_app (t1 t2 : list Event) :
  children (t1 ++ t2) = children t1 ++ children t2.
Proof.
  induction t1 as [|e t1 IH]; [reflexivity|].
  destruct e; cbn; rewrite IH; reflexivity.
Qed.

Lemma subscribed_app (t1 t2 : list Event) :
  subscribed (t1 ++ t2) = subscribed t1 + subscribed t2.
Proof.
  induction t1 as [|e t1 IH]; [reflexivity|].
  destruct e; cbn; rewrite IH; reflexivity.
Qed.

Lemma cancelled_app (t1 t2 : list Event) :
  cancelled (t1 ++ t2) = cancelled t1 + cancelled t2.
Proof.
  induction t1 as [|e t1 IH]; [reflexivity|].
  destruct e; cbn; rewrite IH; reflexivity.
Qed.

Lemma messages_quiet (t : list Event) :
  Forall (fun e => is_message e = true) t -> quiet t /\ probes t = [].
Proof.
  induction 1 as [|e t He _ IH]; [repeat split|].
  destruct e; try discriminate He; exact IH.
Qed.

Lemma quiet_app (t1 t2 : list Event) : quiet t1 -> quiet t2 -> quiet (t1 ++ t2).
Proof.
  unfold quiet. intros (Hc1 & Hs1 & Hx1) (Hc2 & Hs2 & Hx2).
  rewrite children_app, subscribed_app, cancelled_app, Hc1, Hc2, Hs1, Hs2, Hx1, Hx2.
  auto.
Qed.

Lemma quiet_one_shot (t1 t2 : list Event) :
  quiet t1 -> one_shot t2 -> one_shot (t1 ++ t2).
Proof.
  unfold quiet, one_shot. intros (Hc1 & Hs1 & Hx1) (Hc2 & Hs2 & Hx2).
  rewrite children_app, subscribed_app, cancelled_app, Hc1, Hs1, Hx1.
  cbn. auto.
Qed.

Lemma one_shot_nil : one_shot [].
Proof. unfold one_shot. cbn. auto. Qed.

Lemma quiet_nil : quiet [].
Proof. repeat split. Qed.

Lemma setup_messages (c : cli.Context) (n : nat) (w : World) :
  Forall (fun e => is_message e = true) (trace (setup c n w)).
Proof.
  unfold setup. destruct (cli.NArg c <? n)%nat; cbn; repeat constructor.
Qed.

Lemma buildFlagArgs_body_messages (c : cli.Context) (args : list string)
    (flag : cli.Flag) (w : World) :
  Forall (fun e => is_message e = true) (trace (buildFlagArgs_body c args flag w)).
Proof.
  unfold buildFlagArgs_body, bind, primaryName.
  destruct (cli.Names flag) as [|name aliases]; cbn; [constructor|].
  destruct (cli.IsSet c name); cbn; [|constructor].
  destruct (cli.Type_ flag); cbn; repeat constructor.
  destruct (cli.Bool c name); cbn; constructor.
Qed.

Lemma buildFlagArgs_loop_messages (c : cli.Context) (w : World)
    (flags : list cli.Flag) :
  forall args,
    Forall (fun e => is_message e = true) (trace (buildFlagArgs_loop c flags args w)).
Proof.
  induction flags as [|flag flags IH]; intros args; cbn; [constructor|].
  rewrite trace_bind. apply Forall_app. split.
  - apply buildFlagArgs_body_messages.
  - destruct (outcome (buildFlagArgs_body c args flag w)); [apply IH | constructor..].
Qed.

Lemma validateAbsolutePath_quiet (path : string) (shouldExist : bool) (w : World) :
  quiet (trace (validateAbsolutePath path shouldExist w)).
Proof.
  rewrite validateAbsolutePath_run.
  destruct (filepath.IsAbs path), shouldExist, (os_Stat w path); repeat split.
Qed.

Lemma executeJuicefsCommand_one_shot (args : list string) (w : World) :
  one_shot (trace (executeJuicefsCommand args w)) /\
  probes (trace (executeJuicefsCommand args w)) = [].
Proof.
  destruct (os_Executable w) as [exe|e] eqn:Hexe.
  - rewrite (executeJuicefsCommand_run args w exe Hexe). unfold one_shot. cbn. auto.
  - rewrite (executeJuicefsCommand_no_executable args w e Hexe).
    unfold one_shot. cbn. auto.
Qed.

(** X11: [umount] validates no path: it never probes the file system,
    whether the mount point exists or not; with its positional given it
    reconstructs the flags and runs [umount MOUNTPOINT flags...], and its
    outcome is that of the runner. *)
Theorem pantheonUmount_no_validation (c : cli.Context) (w : World) :
  probes (trace (pantheonUmount c w)) = [] /\
  (forall exe flagArgs,
      1 <= cli.NArg c ->
      outcome (buildFlagArgs c w) = Ret flagArgs ->
      os_Executable w = inl exe ->
      pantheonUmount c w
      = ([EvNotify; EvRun exe ("umount" :: cli.Get c 0 :: flagArgs); EvStop],
         outcome (executeJuicefsCommand ("umount" :: cli.Get c 0 :: flagArgs) w))).
Proof.
  split.
  - unfold pantheonUmount. rewrite trace_bind, probes_app.
    rewrite (proj2 (messages_quiet _ (setup_messages c 1 w))).
    destruct (outcome (setup c 1 w)); [|reflexivity..].
    rewrite trace_bind, probes_app.
    unfold buildFlagArgs.
    rewrite (proj2 (messages_quiet _ (buildFlagArgs_loop_messages c w _ []))).
    destruct (outcome (buildFlagArgs_loop c (cli.Flags (cli.Command_ c)) [] w));
      [|reflexivity..].
    apply executeJuicefsCommand_one_shot.
  - intros exe flagArgs Hn Hflags Hexe. unfold pantheonUmount.
    rewrite (after_setup c 1 w _ Hn).
    unfold bind. rewrite (buildFlagArgs_Ret c w flagArgs Hflags).
    change (["umount"; cli.Get c 0] ++ flagArgs)
      with ("umount" :: cli.Get c 0 :: flagArgs).
    rewrite (executeJuicefsCommand_run _ w exe Hexe). reflexivity.
Qed.

Lemma pantheonUmount_no_validation_witness :
  pantheonUmount umount_context (empty_world (Waited (Exited 0)))
  = ([EvNotify; EvRun "/usr/local/bin/juicefs" ["umount"; "/mnt/jfs"; "--d"]; EvStop],
     Ret None).
Proof.
  exact (proj2 (pantheonUmount_no_validation umount_context
                  (empty_world (Waited (Exited 0))))
               "/usr/local/bin/juicefs" ["--d"] (le_n 1) eq_refl eq_refl).
Defined.

(** X12: [checkpoint] starts the target command exactly when the old
    location is absolute and exists and the new one is absolute and does
    not exist, and then as [clone OLD NEW] with the two values as given:
    no flag of the invocation is forwarded. *)
Theorem pantheonCheckpoint_children (c : cli.Context) (w : World) (exe : string) :
  2 <= cli.NArg c ->
  os_Executable w = inl exe ->
  children (trace (pantheonCheckpoint c w))
  = if filepath.IsAbs (cli.Get c 0) && os_Stat w (cli.Get c 0)
       && filepath.IsAbs (cli.Get c 1) && negb (os_Stat w (cli.Get c 1))
    then [["clone"; cli.Get c 0; cli.Get c 1]]
    else [].
Proof.
  intros Hn Hexe. unfold pantheonCheckpoint.
  rewrite (after_setup c 2 w _ Hn).
  rewrite !trace_bind, !validateAbsolutePath_run.
  rewrite (executeJuicefsCommand_run _ w exe Hexe).
  destruct (filepath.IsAbs (cli.Get c 0)), (os_Stat w (cli.Get c 0)),
    (filepath.IsAbs (cli.Get c 1)), (os_Stat w (cli.Get c 1)); reflexivity.
Qed.

Lemma pantheonCheckpoint_children_witness :
  children (trace (pantheonCheckpoint
                     (cli.parsed {| cli.Name := "checkpoint"; cli.Flags := example_flags |}
                                 ["/data/myfs"; "/data/branch"] example_given)
                     query_world))
  = [["clone"; "/data/myfs"; "/data/branch"]].
Proof.
  exact (pantheonCheckpoint_children
           (cli.parsed {| cli.Name := "checkpoint"; cli.Flags := example_flags |}
                       ["/data/myfs"; "/data/branch"] example_given)
           query_world "/usr/local/bin/juicefs" (le_n 2) eq_refl).
Defined.

Lemma setup_outcome (c : cli.Context) (n : nat) (w : World) :
  outcome (setup c n w) = Ret tt \/ outcome (setup c n w) = Halt 1%Z.
Proof. unfold setup. destruct (cli.NArg c <? n)%nat; cbn; auto. Qed.

Lemma halted_quiet {A} (t : list Event) : quiet t -> @fails A (t, Halt 1%Z) /\ quiet t.
Proof. intros H. split; [apply fails_Halt_1 | exact H]. Qed.

(** A command that has [k] after its [setup] and whose [k] fails without
    starting anything does so as a whole. *)
Lemma after_setup_fails (c : cli.Context) (n : nat) (w : World)
    (k : M (option error)) :
  fails (k w) /\ quiet (trace (k w)) ->
  fails (bind (setup c n) (fun _ => k) w) /\
  quiet (trace (bind (setup c n) (fun _ => k) w)).
Proof.
  intros [Hfails Hquiet]. split.
  - unfold fails. rewrite outcome_bind.
    destruct (setup_outcome c n w) as [-> | ->]; [exact Hfails|].
    exists 1%Z. split; [reflexivity | discriminate].
  - rewrite trace_bind. apply quiet_app.
    + apply (messages_quiet _ (setup_messages c n w)).
    + destruct (outcome (setup c n w)); [exact Hquiet | apply quiet_nil..].
Qed.

Lemma validation_fails (path : string) (shouldExist : bool) (w : World)
    (k : unit -> M (option error)) :
  filepath.IsAbs path = false \/ os_Stat w path = negb shouldExist ->
  fails (bind (validateAbsolutePath path shouldExist) k w) /\
  quiet (trace (bind (validateAbsolutePath path shouldExist) k w)).
Proof.
  intros H. unfold bind. rewrite validateAbsolutePath_run.
  destruct (filepath.IsAbs path), shouldExist, (os_Stat w path);
    cbn in *; try (apply halted_quiet; repeat split);
    destruct H as [H|H]; discriminate H.
Qed.

(** X13: a failed path check stops the command before anything is
    started: when the (stripped) meta location of [format] is not absolute
    or exists, when that of [mount] is not absolute or does not exist, or
    when a location of [checkpoint] fails its check, the process ends with
    a non-zero status and has started no child and made no signal
    subscription. *)
Theorem failed_validation_starts_nothing (c : cli.Context) (w : World) :
  (filepath.IsAbs (metaDirWithoutQuery (cli.Get c 0)) = false \/
   os_Stat w (metaDirWithoutQuery (cli.Get c 0)) = true ->
   fails (pantheonFormat c w) /\ quiet (trace (pantheonFormat c w))) /\
  (filepath.IsAbs (metaDirWithoutQuery (cli.Get c 0)) = false \/
   os_Stat w (metaDirWithoutQuery (cli.Get c 0)) = false ->
   fails (pantheonMount c w) /\ quiet (trace (pantheonMount c w))) /\
  (filepath.IsAbs (cli.Get c 0) = false \/ os_Stat w (cli.Get c 0) = false \/
   filepath.IsAbs (cli.Get c 1) = false \/ os_Stat w (cli.Get c 1) = true ->
   fails (pantheonCheckpoint c w) /\ quiet (trace (pantheonCheckpoint c w))).
Proof.
  split; [|split]; intros H.
  - unfold pantheonFormat. apply after_setup_fails.
    apply validation_fails. exact H.
  - unfold pantheonMount. apply after_setup_fails.
    apply validation_fails. exact H.
  - unfold pantheonCheckpoint. apply after_setup_fails.
    destruct (filepath.IsAbs (cli.Get c 0)) eqn:Habs;
      [destruct (os_Stat w (cli.Get c 0)) eqn:Hstat|].
    + assert (Hnew : filepath.IsAbs (cli.Get c 1) = false \/
                     os_Stat w (cli.Get c 1) = negb false)
        by (destruct H as [H|[H|H]]; [discriminate H | discriminate H | exact H]).
      pose proof (validation_fails (cli.Get c 1) false w
                    (fun _ => executeJuicefsCommand
                                ["clone"; cli.Get c 0; cli.Get c 1]) Hnew)
        as [Hfails Hquiet].
      split.
      * unfold fails. rewrite outcome_bind, validateAbsolutePath_outcome, Habs, Hstat.
        exact Hfails.
      * rewrite trace_bind. apply quiet_app; [apply validateAbsolutePath_quiet|].
        rewrite validateAbsolutePath_outcome, Habs, Hstat. exact Hquiet.
    + apply validation_fails. right. exact Hstat.
    + apply validation_fails. left. exact Habs.
Qed.

Lemma failed_validation_starts_nothing_witness :
  fails (pantheonFormat (query_context "format") query_world) /\
  quiet (trace (pantheonFormat (query_context "format") query_world)).
Proof.
  apply (proj1 (failed_validation_starts_nothing (query_context "format") query_world)).
  right. reflexivity.
Defined.

(** X14: the exit code of the child is that of the command: when the
    checks of a command pass, the flags are reconstructed and the
    executable is known, a child that exits with status [n] makes the
    command return nil for [n = 0] and end the process with status [n]
    otherwise, for each of the four commands. *)
Theorem command_exit_code (c : cli.Context) (w : World) (exe : string)
    (flagArgs : list string) (n : Z) :
  os_Executable w = inl exe ->
  (forall args, exec_Run w exe args = Waited (Exited n)) ->
  outcome (buildFlagArgs c w) = Ret flagArgs ->
  let result : Outcome (option error) := if (n =? 0)%Z then Ret None else Halt n in
  (2 <= cli.NArg c ->
   filepath.IsAbs (metaDirWithoutQuery (cli.Get c 0)) = true ->
   os_Stat w (metaDirWithoutQuery (cli.Get c 0)) = false ->
   outcome (pantheonFormat c w) = result) /\
  (2 <= cli.NArg c ->
   filepath.IsAbs (metaDirWithoutQuery (cli.Get c 0)) = true ->
   os_Stat w (metaDirWithoutQuery (cli.Get c 0)) = true ->
   outcome (pantheonMount c w) = result) /\
  (1 <= cli.NArg c -> outcome (pantheonUmount c w) = result) /\
  (2 <= cli.NArg c ->
   filepath.IsAbs (cli.Get c 0) = true -> os_Stat w (cli.Get c 0) = true ->
   filepath.IsAbs (cli.Get c 1) = true -> os_Stat w (cli.Get c 1) = false ->
   outcome (pantheonCheckpoint c w) = result).
Proof.
  intros Hexe Hrun Hflags result.
  assert (Hchild : forall args, outcome (executeJuicefsCommand args w) = result).
  { intros args. rewrite (executeJuicefsCommand_run args w exe Hexe), Hrun.
    subst result. destruct n; reflexivity. }
  split; [|split; [|split]].
  - intros Hn Habs Hstat. unfold pantheonFormat.
    rewrite (after_setup c 2 w _ Hn).
    rewrite outcome_bind, validateAbsolutePath_outcome, Habs, Hstat. cbn [andb Bool.eqb].
    rewrite outcome_bind, Hflags. apply Hchild.
  - intros Hn Habs Hstat. unfold pantheonMount.
    rewrite (after_setup c 2 w _ Hn).
    rewrite outcome_bind, validateAbsolutePath_outcome, Habs, Hstat. cbn [andb Bool.eqb].
    rewrite outcome_bind, Hflags. apply Hchild.
  - intros Hn. unfold pantheonUmount.
    rewrite (after_setup c 1 w _ Hn).
    rewrite outcome_bind, Hflags. apply Hchild.
  - intros Hn Habs0 Hstat0 Habs1 Hstat1. unfold pantheonCheckpoint.
    rewrite (after_setup c 2 w _ Hn).
    rewrite outcome_bind, validateAbsolutePath_outcome, Habs0, Hstat0. cbn [andb Bool.eqb].
    rewrite outcome_bind, validateAbsolutePath_outcome, Habs1, Hstat1. cbn [andb Bool.eqb].
    apply Hchild.
Qed.

Lemma command_exit_code_witness :
  outcome (pantheonMount (query_context "mount")
             (world_with ["/data/myfs"] (Waited (Exited 137)))) = Halt 137%Z /\
  outcome (pantheonUmount umount_context (empty_world (Waited (Exited 0))))
  = Ret None.
Proof.
  split.
  - apply (proj1 (proj2 (command_exit_code (query_context "mount")
                           (world_with ["/data/myfs"] (Waited (Exited 137)))
                           "/usr/local/bin/juicefs" [] 137
                           eq_refl (fun _ => eq_refl) eq_refl)));
      [exact (le_n 2) | reflexivity | reflexivity].
  - apply (proj1 (proj2 (proj2 (command_exit_code umount_context
                                  (empty_world (Waited (Exited 0)))
                                  "/usr/local/bin/juicefs" ["--d"] 0
                                  eq_refl (fun _ => eq_refl) eq_refl)))).
    exact (le_n 1).
Defined.

Lemma one_shot_bind {A} (m : M A) (k : A -> M (option error)) (w : World) :
  quiet (trace (m w)) ->
  (forall a, one_shot (trace (k a w))) ->
  one_shot (trace (bind m k w)).
Proof.
  intros Hm Hk. rewrite trace_bind. apply quiet_one_shot; [exact Hm|].
  destruct (outcome (m w)); [apply Hk | apply one_shot_nil..].
Qed.

(** X15: whatever the invocation and the world, a command starts at most
    one child, subscribes to the signals once per child it starts, and
    cancels every subscription it made: no run of [format], [mount],
    [umount] or [checkpoint] leaves a subscription behind. *)
Theorem commands_one_shot (c : cli.Context) (w : World) :
  one_shot (trace (pantheonFormat c w)) /\
  one_shot (trace (pantheonMount c w)) /\
  one_shot (trace (pantheonUmount c w)) /\
  one_shot (trace (pantheonCheckpoint c w)).
Proof.
  assert (Hsetup : forall n, quiet (trace (setup c n w)))
    by (intros n; apply (messages_quiet _ (setup_messages c n w))).
  assert (Hflags : quiet (trace (buildFlagArgs c w)))
    by (apply (messages_quiet _ (buildFlagArgs_loop_messages c w _ []))).
  assert (Hexec : forall args, one_shot (trace (executeJuicefsCommand args w)))
    by (intros args; apply executeJuicefsCommand_one_shot).
  unfold pantheonFormat, pantheonMount, pantheonUmount, pantheonCheckpoint.
  repeat split;
    repeat first
      [ apply Hexec
      | apply one_shot_bind;
        [first [apply Hsetup | apply validateAbsolutePath_quiet | exact Hflags]
        | intros ?] ].
Qed.

(** X16: [format] and [mount] report the stripped path, not the value
    the caller gave: a meta location that is not absolute ends the command
    with the one message [path must be absolute: ] followed by the part
    before the first ['?'], before any probe of the file system; for a
    value that is empty or begins with ['?'] the message names the empty
    path. *)
Theorem relative_meta_location_message (c : cli.Context) (w : World) :
  2 <= cli.NArg c ->
  filepath.IsAbs (cli.Get c 0) = false ->
  pantheonFormat c w
  = ([EvFatalf ("path must be absolute: " +:+ metaDirWithoutQuery (cli.Get c 0))],
     Halt 1%Z) /\
  pantheonMount c w
  = ([EvFatalf ("path must be absolute: " +:+ metaDirWithoutQuery (cli.Get c 0))],
     Halt 1%Z) /\
  (forall q, cli.Get c 0 = String "?" q ->
             metaDirWithoutQuery (cli.Get c 0) = EmptyString).
Proof.
  intros Hn Habs.
  assert (Hstripped : filepath.IsAbs (metaDirWithoutQuery (cli.Get c 0)) = false)
    by (rewrite metaDirWithoutQuery_beforeQuery, beforeQuery_IsAbs; exact Habs).
  unfold pantheonFormat, pantheonMount.
  rewrite !(after_setup c 2 w _ Hn). unfold bind.
  rewrite !validateAbsolutePath_run, Hstripped.
  split; [reflexivity|]. split; [reflexivity|].
  intros q ->. rewrite metaDirWithoutQuery_beforeQuery. reflexivity.
Qed.

Lemma relative_meta_location_message_witness :
  pantheonMount (cli.parsed {| cli.Name := "mount"; cli.Flags := example_flags |}
                            ["?cache=1"; "/mnt/jfs"] example_given)
                query_world
  = ([EvFatalf "path must be absolute: "], Halt 1%Z).
Proof.
  exact (proj1 (proj2 (relative_meta_location_message
                         (cli.parsed {| cli.Name := "mount"; cli.Flags := example_flags |}
                                     ["?cache=1"; "/mnt/jfs"] example_given)
                         query_world (le_n 2) eq_refl))).
Defined.

Lemma buildFlagArgs_body_Halt (c : cli.Context) (args : list string)
    (flag : cli.Flag) (w : World) (n : Z) :
  outcome (buildFlagArgs_body c args flag w) = Halt n -> n = 1%Z.
Proof.
  unfold buildFlagArgs_body, bind, primaryName.
  destruct (cli.Names flag) as [|name aliases]; cbn; [discriminate|].
  destruct (cli.IsSet c name); cbn; [|discriminate].
  destruct (cli.Type_ flag); cbn; try discriminate.
  - destruct (cli.Bool c name); discriminate.
  - intros H. inversion H. reflexivity.
Qed.

Lemma buildFlagArgs_loop_Halt (c : cli.Context) (w : World) (n : Z)
    (flags : list cli.Flag) :
  forall args, outcome (buildFlagArgs_loop c flags args w) = Halt n -> n = 1%Z.
Proof.
  induction flags as [|flag flags IH]; intros args; cbn; [discriminate|].
  rewrite outcome_bind.
  destruct (outcome (buildFlagArgs_body c args flag w)) as [a|m|e] eqn:Hbody.
  - apply IH.
  - intros H. inversion H. subst m.
    exact (buildFlagArgs_body_Halt c args flag w n Hbody).
  - discriminate.
Qed.

(** What is left of a command once its positionals are counted and its
    path is checked: it fails and starts nothing when the flag
    reconstruction ends the process. *)
Lemma flags_then_run_fails (c : cli.Context) (w : World) (n : Z)
    (run : list string -> M (option error)) :
  outcome (buildFlagArgs c w) = Halt n ->
  fails (bind (buildFlagArgs c) run w) /\
  quiet (trace (bind (buildFlagArgs c) run w)).
Proof.
  intros Hflags. split.
  - unfold fails. rewrite outcome_bind, Hflags. exists n. split; [reflexivity|].
    rewrite (buildFlagArgs_loop_Halt c w n _ [] Hflags). discriminate.
  - rewrite trace_bind, Hflags, app_nil_r.
    apply (messages_quiet _ (buildFlagArgs_loop_messages c w _ [])).
Qed.

Lemma checked_then_fails (path : string) (shouldExist : bool) (w : World)
    (k : M (option error)) :
  fails (k w) /\ quiet (trace (k w)) ->
  fails (bind (validateAbsolutePath path shouldExist) (fun _ => k) w) /\
  quiet (trace (bind (validateAbsolutePath path shouldExist) (fun _ => k) w)).
Proof.
  intros [Hfails Hquiet]. split.
  - unfold fails. rewrite outcome_bind, validateAbsolutePath_outcome.
    destruct (filepath.IsAbs path && Bool.eqb (os_Stat w path) shouldExist);
      [exact Hfails|].
    exists 1%Z. split; [reflexivity | discriminate].
  - rewrite trace_bind. apply quiet_app; [apply validateAbsolutePath_quiet|].
    destruct (outcome (validateAbsolutePath path shouldExist w));
      [exact Hquiet | apply quiet_nil..].
Qed.

(** X17: the flags are reconstructed before anything is started: when
    [buildFlagArgs] ends the process (a flag the caller set has a type it
    does not handle), [format], [mount] and [umount] end with a non-zero
    status, whatever the paths, and have started no child and made no
    signal subscription. *)
Theorem flag_failure_starts_nothing (c : cli.Context) (w : World) (n : Z) :
  outcome (buildFlagArgs c w) = Halt n ->
  (fails (pantheonFormat c w) /\ quiet (trace (pantheonFormat c w))) /\
  (fails (pantheonMount c w) /\ quiet (trace (pantheonMount c w))) /\
  (fails (pantheonUmount c w) /\ quiet (trace (pantheonUmount c w))).
Proof.
  intros Hflags.
  unfold pantheonFormat, pantheonMount, pantheonUmount.
  split; [|split]; apply after_setup_fails;
    try apply checked_then_fails;
    exact (flags_then_run_fails c w n _ Hflags).
Qed.

Lemma flag_failure_starts_nothing_witness :
  fails (pantheonUmount
           (duration_context [("heartbeat", cli.VString "12s")])
           (empty_world (Waited (Exited 0)))) /\
  quiet (trace (pantheonUmount
                  (duration_context [("heartbeat", cli.VString "12s")])
                  (empty_world (Waited (Exited 0))))).
Proof.
  exact (proj2 (proj2 (flag_failure_starts_nothing
                         (duration_context [("heartbeat", cli.VString "12s")])
                         (empty_world (Waited (Exited 0))) 1 eq_refl))).
Defined.

(** ** The executable *)

Lemma quiet_bind {A B} (m : M A) (k : A -> M B) (w : World) :
  quiet (trace (m w)) ->
  (forall a, quiet (trace (k a w))) ->
  quiet (trace (bind m k w)).
Proof.
  intros Hm Hk. rewrite trace_bind. apply quiet_app; [exact Hm|].
  destruct (outcome (m w)); [apply Hk | apply quiet_nil..].
Qed.

(** X10: when the path of the running executable cannot be resolved, the
    runner logs the fatal error and ends the process with status 1 before
    it subscribes to any signal or starts any child; so none of the four
    commands starts a child or makes a subscription in such a world. *)
Theorem executable_unresolved_fatal (c : cli.Context) (args : list string)
    (w : World) (e : string) :
  os_Executable w = inr e ->
  executeJuicefsCommand args w
  = ([EvFatalf ("failed to get current executable: " +:+ e)], Halt 1%Z) /\
  quiet (trace (pantheonFormat c w)) /\
  quiet (trace (pantheonMount c w)) /\
  quiet (trace (pantheonUmount c w)) /\
  quiet (trace (pantheonCheckpoint c w)).
Proof.
  intros Hexe.
  assert (Hrun : forall a,
             executeJuicefsCommand a w
             = ([EvFatalf ("failed to get current executable: " +:+ e)], Halt 1%Z)).
  { intros a. unfold executeJuicefsCommand, bind, executable_or_fatal.
    rewrite Hexe. reflexivity. }
  assert (Hexec : forall a, quiet (trace (executeJuicefsCommand a w)))
    by (intros a; rewrite Hrun; repeat split).
  assert (Hsetup : forall n, quiet (trace (setup c n w)))
    by (intros n; apply (messages_quiet _ (setup_messages c n w))).
  assert (Hflags : quiet (trace (buildFlagArgs c w)))
    by (apply (messages_quiet _ (buildFlagArgs_loop_messages c w _ []))).
  split; [apply Hrun|].
  unfold pantheonFormat, pantheonMount, pantheonUmount, pantheonCheckpoint.
  split; [|split; [|split]];
    repeat first
      [ apply Hexec
      | apply quiet_bind;
        [first [apply Hsetup | apply validateAbsolutePath_quiet | exact Hflags]
        | intros ?] ].
Qed.

Lemma executable_unresolved_fatal_witness :
  executeJuicefsCommand ["umount"; "/mnt/jfs"] world_without_executable
  = ([EvFatalf ("failed to get current executable: "
                +:+ "readlink /proc/self/exe: no such file or directory")],
     Halt 1%Z).
Proof.
  exact (proj1 (executable_unresolved_fatal umount_context ["umount"; "/mnt/jfs"]
                  world_without_executable _ eq_refl)).
Defined.
